(** * LLM-Git-Message: a verified model of [main.py]

    The program reads the working-tree changes of a git repository, filters
    every file's unified diff down to its change and header lines, joins the
    per-file blocks into one bundle, wraps the bundle in a prompt, posts the
    prompt to a chat-completion endpoint with bounded retries, and prints the
    suggested commit message.

    The embedding is shallow.  Pure string code becomes Rocq functions on
    [string]; the code with effects ([print], [time.sleep], [requests.post],
    exceptions) runs in a small writer-and-error monad [io] whose log is the
    list of effects in program order.  The outside world is passed in
    explicitly: [git] gives what [git.Repo(path)] does, [http] gives what the
    POST of each attempt does.

    A [string] stands for a Python [str] whose code points are below 256, one
    [ascii] per code point.

    Two library calls are taken to return: [repo.index.diff(None)] once
    [git.Repo] has returned, and [response.json()] on a response with status
    200.  A run in which one of them raises is outside the model; no theorem
    below speaks about such a run. *)

From Stdlib Require Import String Ascii List ZArith Lia Bool Permutation.
From Stdlib Require Import DecimalString.
Import ListNotations.

Local Open Scope string_scope.
Local Open Scope Z_scope.

(* ================================================================= *)
(** ** Python builtins used by the program *)

Module Py.

(** The line feed, Python's ["\n"]. *)
Definition LF : ascii := "010"%char.
Definition nl : string := String LF EmptyString.

(** [s.split("\n")]: the pieces of [s] between line feeds; never empty. *)
Fixpoint split_lines (s : string) : list string :=
  match s with
  | EmptyString => [EmptyString]
  | String c s' =>
      if Ascii.eqb c LF then EmptyString :: split_lines s'
      else match split_lines s' with
           | [] => [String c EmptyString]
           | l :: ls => String c l :: ls
           end
  end.

(** [line.startswith(p)]. *)
Definition startswith (line p : string) : bool := String.prefix p line.

(** [sep.join(parts)]. *)
Definition join (sep : string) (parts : list string) : string :=
  String.concat sep parts.

(** [sub in s] for two strings: [sub] occurs somewhere in [s]. *)
Fixpoint contains (sub s : string) : bool :=
  String.prefix sub s
  || match s with
     | EmptyString => false
     | String _ s' => contains sub s'
     end.

(** [str.isspace] on one code point below 256: TAB..CR, FS..US, SPACE,
    NEL and NBSP. *)
Definition isspace (c : ascii) : bool :=
  let n := N_of_ascii c in
  ((9 <=? n) && (n <=? 13) || (28 <=? n) && (n <=? 32)
   || (n =? 133) || (n =? 160))%N.

Fixpoint lstrip (s : string) : string :=
  match s with
  | EmptyString => EmptyString
  | String c s' => if isspace c then lstrip s' else s
  end.

Fixpoint rstrip (s : string) : string :=
  match s with
  | EmptyString => EmptyString
  | String c s' =>
      match rstrip s' with
      | EmptyString => if isspace c then EmptyString else String c EmptyString
      | r => String c r
      end
  end.

(** [s.strip()]. *)
Definition strip (s : string) : string := lstrip (rstrip s).

(** [str(n)] for an [int]. *)
Definition str (n : Z) : string := NilZero.string_of_int (Z.to_int n).

(** [s * n]. *)
Fixpoint repeat_str (s : string) (n : nat) : string :=
  match n with
  | O => EmptyString
  | S n' => s ++ repeat_str s n'
  end.

(** [range(n)]. *)
Definition range (n : Z) : list Z := map Z.of_nat (seq 0 (Z.to_nat n)).

(** [not s] for a string. *)
Definition is_empty (s : string) : bool :=
  match s with EmptyString => true | _ => false end.

(** The objects [json.loads] builds.  A [VFloat m e] is the decimal
    [m * 10^e]; a [VDict] lists the items of the dict, keys distinct. *)
#[warnings="-register-all"]
Inductive value : Type :=
| VNone
| VBool (b : bool)
| VInt (n : Z)
| VFloat (m e : Z)
| VStr (s : string)
| VList (l : list value)
| VDict (items : list (string * value)).

(** The exceptions that can leave a function of the program. *)
Inductive exn : Type :=
| TypeError
| KeyError
| IndexError
| AttributeError
| InvalidGitRepositoryError
| NoSuchPathError.

Definition result (A : Type) : Type := (exn + A)%type.

Fixpoint lookup (k : string) (items : list (string * value)) : option value :=
  match items with
  | [] => None
  | (k', v) :: rest => if String.eqb k k' then Some v else lookup k rest
  end.

Definition is_str (k : string) (v : value) : bool :=
  match v with VStr s => String.eqb k s | _ => false end.

(** [k in v] for a string [k]. *)
Definition contains_key (k : string) (v : value) : result bool :=
  match v with
  | VDict items => inr (match lookup k items with Some _ => true | None => false end)
  | VList l => inr (existsb (is_str k) l)
  | VStr s => inr (contains k s)
  | _ => inl TypeError
  end.

(** [v[k]] for a string [k]. *)
Definition getitem (v : value) (k : string) : result value :=
  match v with
  | VDict items =>
      match lookup k items with Some x => inr x | None => inl KeyError end
  | _ => inl TypeError
  end.

(** [v[0]].  The keys of a parsed JSON object are strings, so [0] is never
    one of them. *)
Definition getitem0 (v : value) : result value :=
  match v with
  | VList (x :: _) => inr x
  | VList [] => inl IndexError
  | VStr (String c _) => inr (VStr (String c EmptyString))
  | VStr EmptyString => inl IndexError
  | VDict _ => inl KeyError
  | _ => inl TypeError
  end.

(** [len(v)]. *)
Definition len (v : value) : result Z :=
  match v with
  | VList l => inr (Z.of_nat (List.length l))
  | VDict items => inr (Z.of_nat (List.length items))
  | VStr s => inr (Z.of_nat (String.length s))
  | _ => inl TypeError
  end.

(** [v.strip()]. *)
Definition strip_method (v : value) : result string :=
  match v with
  | VStr s => inr (strip s)
  | _ => inl AttributeError
  end.

End Py.

Import Py.

(* ================================================================= *)
(** ** Effects *)

(** What the program does to the outside world, in program order.  The two
    [print] calls whose text interpolates a Python object keep the object:
    [PrintUnexpected data] is [print(f"Unexpected response format: {data}")]
    and [PrintError e] is the first [print] of [main]'s handler. *)
Inductive event : Type :=
| Print (line : string)
| PrintUnexpected (data : value)
| PrintError (e : exn)
| Sleep (seconds : Z)
| Post (url : string) (json : value) (headers : list (string * string))
       (timeout : Z).

(** A computation logs its effects and ends by returning or by raising. *)
Definition io (A : Type) : Type := (list event * result A)%type.

Definition ret {A} (a : A) : io A := ([], inr a).

Definition raise {A} (e : exn) : io A := ([], inl e).

Definition emit (ev : event) : io unit := ([ev], inr tt).

Definition print (line : string) : io unit := emit (Print line).

Definition lift {A} (r : result A) : io A := ([], r).

Definition bind {A B} (m : io A) (k : A -> io B) : io B :=
  match m with
  | (log, inl e) => (log, inl e)
  | (log, inr a) => let (log', r) := k a in ((log ++ log')%list, r)
  end.

(** [try: m except Exception as e: h e]. *)
Definition catch {A} (m : io A) (h : exn -> io A) : io A :=
  match m with
  | (log, inl e) => let (log', r) := h e in ((log ++ log')%list, r)
  | (log, inr a) => (log, inr a)
  end.

Notation "x <- m ;; k" := (bind m (fun x => k))
  (at level 61, m at next level, right associativity).
Notation "m ;; k" := (bind m (fun _ => k))
  (at level 61, right associativity).

Definition log_of {A} (m : io A) : list event := fst m.
Definition outcome_of {A} (m : io A) : result A := snd m.

(** The lines written by [print], the seconds slept and the requests posted. *)
Definition is_post (ev : event) : bool :=
  match ev with Post _ _ _ _ => true | _ => false end.

Definition posts (log : list event) : list event := filter is_post log.

Fixpoint sleeps (log : list event) : list Z :=
  match log with
  | [] => []
  | Sleep d :: rest => d :: sleeps rest
  | _ :: rest => sleeps rest
  end.

Definition total (ds : list Z) : Z := fold_right Z.add 0 ds.

(* ================================================================= *)
(** ** The outside world *)

(** [git.Repo(path)] when it succeeds: the paths [repo.index.diff(None)]
    reports, in its order, and what [repo.git.diff(path)] does for a path:
    the diff text, or an exception [e], given by [str(e)].  The call
    [repo.index.diff(None)] is taken to return its list: a repository on
    which it raises (a bare one, say) is no [Repo]. *)
Record Repo : Type := {
  index_diff : list string;
  git_diff : string -> string + string
}.

(** [git.Repo(path)]: a repository, or one of the two exceptions its
    constructor raises. *)
Definition Git : Type := string -> result Repo.

(** What [requests.post] does in one attempt: it raises a
    [RequestException] [e], given by [str(e)], or it returns a response, of
    which the program reads [status_code], [text] when the status is not
    200, and [json()] when it is.  A response with status 200 has a JSON
    body: [json] is the object [response.json()] returns.  A response with
    status 200 on which [response.json()] raises is no [http_outcome]. *)
Inductive http_outcome : Type :=
| RequestException (e : string)
| Response (status_code : Z) (text : string) (json : value).

(** The outcome of the POST of each attempt. *)
Definition Http : Type := Z -> http_outcome.

(* ================================================================= *)
(** ** main.py *)

Definition SYSTEM_PROMPT : string := "
You are an expert software developer helping to write clear, concise, and informative commit messages.
Analyze the git diff changes and generate a commit message that follows conventional commit format.

Guidelines:
- Use conventional commit format: <type>(<scope>): <description>
- Common types: feat, fix, docs, style, refactor, test, chore
- Keep the description under 50 characters
- Provide a detailed body explaining WHAT changed and WHY (if needed)
- Focus on the actual changes, not the process
- Be specific about what was added, removed, or modified

Example format:
feat(auth): add user login functionality

- Implement JWT token generation
- Add login endpoint at /api/auth/login
- Include input validation for credentials
".

Definition MODEL_NAME : string := "llama3".
Definition API_ENDPOINT : string := "http://localhost:11434/v1/chat/completions".
Definition API_KEY : string := "ollama".
Definition MAX_RETRIES : Z := 3.
Definition BASE_DELAY : Z := 1.

(** [is_git_repository]: only [InvalidGitRepositoryError] is caught. *)
Definition is_git_repository (git : Git) (path : string) : io bool :=
  match git path with
  | inr _ => ret true
  | inl InvalidGitRepositoryError => ret false
  | inl e => raise e
  end.

(** The test of the [if] in the line loop of [get_git_diffs]. *)
Definition keep_line (line : string) : bool :=
  startswith line "+" || startswith line "-"
  || startswith line "@@" || startswith line "diff --git"
  || startswith line "---" || startswith line "+++"
  || startswith line "index ".

(** The inner loop: [processed_diff] starts empty and every kept line is
    appended to it. *)
Definition processed_diff (diff_text : string) : list string :=
  fold_left
    (fun processed line => if keep_line line then (processed ++ [line])%list else processed)
    (split_lines diff_text) [].

(** The block appended to [diffs] for one file. *)
Definition file_diff (a_path : string) (processed : list string) : string :=
  ("File: " ++ a_path ++ nl) ++ join nl processed.

(** One turn of the outer loop, [diffs] being the blocks collected so far. *)
Definition diff_item (repo : Repo) (diffs : list string) (a_path : string)
  : io (list string) :=
  match git_diff repo a_path with
  | inl diff_text =>
      let processed := processed_diff diff_text in
      match processed with
      | [] => ret diffs
      | _ => ret (diffs ++ [file_diff a_path processed])%list
      end
  | inr e =>
      print ("Warning: Could not get diff for " ++ a_path ++ ": " ++ e) ;;
      ret diffs
  end.

Fixpoint diff_items (repo : Repo) (items : list string) (diffs : list string)
  : io (list string) :=
  match items with
  | [] => ret diffs
  | a_path :: rest =>
      diffs' <- diff_item repo diffs a_path ;;
      diff_items repo rest diffs'
  end.

Definition get_git_diffs (git : Git) (repo_path : string) : io string :=
  repo <- lift (git repo_path) ;;
  diffs <- diff_items repo (index_diff repo) [] ;;
  ret (join (nl ++ nl) diffs).

(** The [headers] and [payload] dicts of [call_llm_api]; the temperature
    [0.3] is [VFloat 3 (-1)]. *)
Definition headers : list (string * string) :=
  [("Content-Type", "application/json");
   ("Authorization", if is_empty API_KEY then "" else "Bearer " ++ API_KEY)].

Definition payload (prompt : string) : value :=
  VDict
    [("model", VStr MODEL_NAME);
     ("messages",
      VList [VDict [("role", VStr "system"); ("content", VStr SYSTEM_PROMPT)];
             VDict [("role", VStr "user"); ("content", VStr prompt)]]);
     ("temperature", VFloat 3 (-1));
     ("max_tokens", VInt 500)].

(** How the body of the [for] loop ends: by [return r], or by reaching the
    backoff below the [try]. *)
Inductive flow : Type :=
| Returned (r : option string)
| Next.

(** The branch taken on status 200, [data] being [response.json()]. *)
Definition on_200 (data : value) : io flow :=
  has <- lift (contains_key "choices" data) ;;
  nonempty <- (if has : bool
               then choices <- lift (getitem data "choices") ;;
                    n <- lift (len choices) ;;
                    ret (0 <? n)
               else ret false) ;;
  if nonempty : bool
  then choices <- lift (getitem data "choices") ;;
       first <- lift (getitem0 choices) ;;
       message <- lift (getitem first "message") ;;
       content <- lift (getitem message "content") ;;
       stripped <- lift (strip_method content) ;;
       ret (Returned (Some stripped))
  else emit (PrintUnexpected data) ;;
       ret (Returned None).

(** The [try] statement of one attempt. *)
Definition attempt_try (http : Http) (prompt : string) (attempt : Z) : io flow :=
  emit (Post API_ENDPOINT (payload prompt) headers 30) ;;
  match http attempt with
  | RequestException e =>
      print ("Request error (attempt " ++ str (attempt + 1) ++ "/"
             ++ str MAX_RETRIES ++ "): " ++ e) ;;
      ret Next
  | Response status_code text data =>
      if status_code =? 200 then on_200 data
      else print ("API request failed with status " ++ str status_code
                  ++ ": " ++ text) ;;
           ret Next
  end.

(** The exponential backoff below the [try]. *)
Definition backoff (attempt : Z) : io unit :=
  if attempt <? MAX_RETRIES - 1 then
    let delay := BASE_DELAY * 2 ^ attempt in
    print ("Retrying in " ++ str delay ++ " seconds...") ;;
    emit (Sleep delay)
  else ret tt.

(** The [for] loop over the attempts still to make, and what follows it. *)
Fixpoint attempts (http : Http) (prompt : string) (todo : list Z)
  : io (option string) :=
  match todo with
  | [] =>
      print "Failed to get response from LLM after all retries." ;;
      ret None
  | attempt :: rest =>
      f <- attempt_try http prompt attempt ;;
      match f with
      | Returned r => ret r
      | Next => backoff attempt ;; attempts http prompt rest
      end
  end.

Definition call_llm_api (http : Http) (prompt : string) : io (option string) :=
  attempts http prompt (range MAX_RETRIES).

Definition user_prompt (diffs : string) : string :=
  "
Please analyze the following git changes and generate an appropriate commit message:

" ++ diffs ++ "

Remember to follow the conventional commit format and focus on the actual changes made.
".

Definition generate_commit_message (http : Http) (diffs : string)
  : io (option string) :=
  call_llm_api http (user_prompt diffs).

(** The four [print] calls that render a message. *)
Definition render (commit_message : string) : io unit :=
  print "Suggested commit message:" ;;
  print (repeat_str "=" 50) ;;
  print commit_message ;;
  print (repeat_str "=" 50).

(** The [try] statement of [main]. *)
Definition main_try (http : Http) (diffs : string) : io unit :=
  catch
    (commit_message <- generate_commit_message http diffs ;;
     match commit_message with
     | None => print "No commit message generated."
     | Some message => render message
     end)
    (fun e =>
       emit (PrintError e) ;;
       print "Please try again later or write the commit message manually.").

(** [main], after [argparse] has produced [args.repo_path]. *)
Definition main (git : Git) (http : Http) (repo_path : string) : io unit :=
  is_repo <- is_git_repository git repo_path ;;
  if negb is_repo
  then print "Error: The specified path is not a valid git repository."
  else
    diffs <- get_git_diffs git repo_path ;;
    if is_empty diffs
    then print "No changes detected in the repository."
    else main_try http diffs.

(** The exit status of the process: 0 when [main] returns, 1 when an
    exception leaves it. *)
Definition exit_code (run : io unit) : Z :=
  match outcome_of run with
  | inr _ => 0
  | inl _ => 1
  end.

(* ================================================================= *)
(** ** Vocabulary of the specification *)

(** The literal prefixes of the filtering policy. *)
Definition diff_prefixes : list string :=
  ["+"; "-"; "@@"; "diff --git"; "---"; "+++"; "index "].

(** [line] starts with one of the listed prefixes. *)
Definition starts_with_listed_prefix (line : string) : Prop :=
  exists p rest, In p diff_prefixes /\ line = p ++ rest.

(** [l1] is [l2] with some elements left out: same elements, same order. *)
Inductive subsequence {A : Type} : list A -> list A -> Prop :=
| sub_done : subsequence [] []
| sub_take x l1 l2 : subsequence l1 l2 -> subsequence (x :: l1) (x :: l2)
| sub_skip x l1 l2 : subsequence l1 l2 -> subsequence l1 (x :: l2).

(** A string without line feed. *)
Fixpoint one_line (s : string) : bool :=
  match s with
  | EmptyString => true
  | String c s' => negb (Ascii.eqb c LF) && one_line s'
  end.

(** The filtered diff of a reported file: [None] when its retrieval raised. *)
Definition filtered_diff (repo : Repo) (a_path : string) : option (list string) :=
  match git_diff repo a_path with
  | inl diff_text => Some (processed_diff diff_text)
  | inr _ => None
  end.

(** The file yields content: its filtered diff exists and is not empty. *)
Definition yields_content (repo : Repo) (a_path : string) : bool :=
  match filtered_diff repo a_path with
  | Some (_ :: _) => true
  | _ => false
  end.

(** The block of a file: the [File:] line, then its filtered diff lines. *)
Definition block (repo : Repo) (a_path : string) : string :=
  match filtered_diff repo a_path with
  | Some processed => "File: " ++ a_path ++ nl ++ join nl processed
  | None => EmptyString
  end.

(** The blocks of the bundle, in the order the files were reported. *)
Definition blocks (repo : Repo) : list string :=
  map (block repo) (filter (yields_content repo) (index_diff repo)).

(** The warnings printed while the bundle is built: one per reported file
    whose diff retrieval raised. *)
Definition warning (repo : Repo) (a_path : string) : list event :=
  match git_diff repo a_path with
  | inl _ => []
  | inr e => [Print ("Warning: Could not get diff for " ++ a_path ++ ": " ++ e)]
  end.

Definition warnings (repo : Repo) : list event :=
  flat_map (warning repo) (index_diff repo).

(** An attempt fails in a way that is retried: the POST raised, or the
    status is not 200. *)
Definition retryable (o : http_outcome) : bool :=
  match o with
  | RequestException _ => true
  | Response status_code _ _ => negb (status_code =? 200)
  end.

(** How many of the attempts [todo] fail before one is not retried. *)
Fixpoint failed_attempts (http : Http) (todo : list Z) : nat :=
  match todo with
  | [] => O
  | attempt :: rest =>
      if retryable (http attempt) then S (failed_attempts http rest) else O
  end.

(** The delay slept after a failed attempt that is not the last. *)
Definition delay_after (attempt : Z) : Z := BASE_DELAY * 2 ^ attempt.

(** The response body has no [choices] to read: an object without the key or
    with an empty array, string or object under it, or an array or a string
    in which ["choices"] does not occur. *)
Definition lacks_choices (data : value) : bool :=
  match data with
  | VDict items =>
      match lookup "choices" items with
      | None => true
      | Some (VList []) => true
      | Some (VStr EmptyString) => true
      | Some (VDict []) => true
      | _ => false
      end
  | VList l => negb (existsb (is_str "choices") l)
  | VStr s => negb (contains "choices" s)
  | _ => false
  end.

(** The string at [message.content] of the first choice, when the body is an
    object whose [choices] array starts with an object that has one. *)
Definition first_choice_content (data : value) : option string :=
  match data with
  | VDict items =>
      match lookup "choices" items with
      | Some (VList (VDict choice :: _)) =>
          match lookup "message" choice with
          | Some (VDict message) =>
              match lookup "content" message with
              | Some (VStr content) => Some content
              | _ => None
              end
          | _ => None
          end
      | _ => None
      end
  | _ => None
  end.

(** The response body has a shape the client deals with: it has no [choices]
    to read, or its first choice carries a string at [message.content]. *)
Definition expected_shape (data : value) : bool :=
  lacks_choices data
  || match first_choice_content data with Some _ => true | None => false end.

(** The separator line of [render]. *)
Definition separator : string := repeat_str "=" 50.

(* ================================================================= *)
(** ** Sample worlds *)

(** A repository with three modified files: a source file with two added
    lines and one removed line, a binary file, and a file whose diff cannot
    be retrieved. *)
Definition sample_diff : string :=
"diff --git a/a.py b/a.py
index 1a2b3c4..5d6e7f8 100644
--- a/a.py
+++ b/a.py
@@ -1,3 +1,4 @@
 import os
+import sys
+import json
-import re
".

Definition sample_repo : Repo := {|
  index_diff := ["a.py"; "logo.png"; "locked.txt"];
  git_diff := fun a_path =>
    if String.eqb a_path "a.py" then inl sample_diff
    else if String.eqb a_path "logo.png"
         then inl "Binary files a/logo.png and b/logo.png differ"
         else inr "Permission denied"
|}.

(** A repository without modified files. *)
Definition clean_repo : Repo := {|
  index_diff := [];
  git_diff := fun _ => inl EmptyString
|}.

(** A file system with the two repositories, a plain directory and nothing
    else. *)
Definition sample_git : Git := fun path =>
  if String.eqb path "/work/project" then inr sample_repo
  else if String.eqb path "/work/clean" then inr clean_repo
  else if String.eqb path "/work/plain" then inl InvalidGitRepositoryError
  else inl NoSuchPathError.

(** Endpoints that answer every POST the same way. *)
Definition answering (status_code : Z) (text : string) (data : value) : Http :=
  fun _ => Response status_code text data.

Definition http_500 : Http := answering 500 "Internal Server Error" VNone.

(** A JSON string literal: [s] between double quotes. *)
Definition quoted (s : string) : string :=
  String (ascii_of_nat 34) s ++ String (ascii_of_nat 34) EmptyString.

(** The response of the scenario: its text and what [json()] makes of it. *)
Definition text_feat : string :=
  "{" ++ quoted "choices" ++ ":[{" ++ quoted "message" ++ ":{"
  ++ quoted "content" ++ ":" ++ quoted "  feat: add X  " ++ "}}]}".

Definition body_feat : value :=
  VDict [("choices",
          VList [VDict [("message",
                         VDict [("content", VStr "  feat: add X  ")])]])].

Definition http_feat : Http := answering 200 text_feat body_feat.

(** An empty object. *)
Definition http_empty_object : Http := answering 200 "{}" (VDict []).

(** An object whose [choices] is [null]. *)
Definition text_null_choices : string := "{" ++ quoted "choices" ++ ":null}".
Definition body_null_choices : value := VDict [("choices", VNone)].
Definition http_null_choices : Http :=
  answering 200 text_null_choices body_null_choices.

(** An object whose only choice is an empty object. *)
Definition text_bare_choice : string := "{" ++ quoted "choices" ++ ":[{}]}".
Definition body_bare_choice : value := VDict [("choices", VList [VDict []])].
Definition http_bare_choice : Http :=
  answering 200 text_bare_choice body_bare_choice.

(** The first attempt cannot connect, the second is answered. *)
Definition http_flaky : Http := fun attempt =>
  if attempt =? 0 then RequestException "Connection refused"
  else Response 200 text_feat body_feat.

(* ================================================================= *)
(** ** Vocabulary of the further properties *)

(** [s] begins, or ends, with a whitespace character. *)
Definition starts_with_space (s : string) : bool :=
  match s with
  | EmptyString => false
  | String c _ => isspace c
  end.

Fixpoint ends_with_space (s : string) : bool :=
  match s with
  | EmptyString => false
  | String c EmptyString => isspace c
  | String _ s' => ends_with_space s'
  end.

(** The retrieval of the diff of [a_path] succeeds. *)
Definition diff_succeeds (repo : Repo) (a_path : string) : bool :=
  match git_diff repo a_path with
  | inl _ => true
  | inr _ => false
  end.

(** [repo] without the reported files whose diff cannot be retrieved. *)
Definition without_failures (repo : Repo) : Repo := {|
  index_diff := filter (diff_succeeds repo) (index_diff repo);
  git_diff := git_diff repo
|}.

(** The lines of the block of a file: the header, then the filtered diff. *)
Definition block_lines (repo : Repo) (a_path : string) : list string :=
  match filtered_diff repo a_path with
  | Some processed => ("File: " ++ a_path) :: processed
  | None => []
  end.

(** Groups of lines with one empty line between two groups. *)
Fixpoint blank_separated (groups : list (list string)) : list string :=
  match groups with
  | [] => []
  | [group] => group
  | group :: rest => (group ++ EmptyString :: blank_separated rest)%list
  end.

(** The fixed text before and after the bundle in the prompt. *)
Definition prompt_intro : string :=
  "
Please analyze the following git changes and generate an appropriate commit message:

".

Definition prompt_outro : string :=
  "

Remember to follow the conventional commit format and focus on the actual changes made.
".

(** A diff text all of whose lines are changes. *)
Definition changes_only_diff : string :=
  "+import sys
-import re".

Definition body_null_content : value :=
  VDict [("choices",
          VList [VDict [("message", VDict [("content", VNone)])]])].

(** Two attempts time out, the third is answered. *)
Definition http_third_time : Http := fun attempt =>
  if attempt <? 2 then RequestException "Read timed out"
  else Response 200 text_feat body_feat.

(* ================================================================= *)
(** ** Strings and lines *)

Lemma startswith_spec (line p : string) :
  startswith line p = true <-> exists rest, line = p ++ rest.
Proof.
  unfold startswith. revert line.
  induction p as [|a p IH]; intros line; simpl.
  - split; [intros _; now exists line | now destruct line].
  - destruct line as [|b line].
    + split; [discriminate | intros [rest H]; discriminate].
    + simpl. destruct (ascii_dec a b) as [->|Hab].
      * rewrite IH. split; intros [rest H]; exists rest.
        -- now rewrite H.
        -- now inversion H.
      * split; [discriminate | intros [rest H]; congruence].
Qed.

Lemma keep_line_spec (line : string) :
  keep_line line = true <-> starts_with_listed_prefix line.
Proof.
  unfold keep_line, starts_with_listed_prefix, diff_prefixes.
  rewrite !orb_true_iff, !startswith_spec. split.
  - intros H.
    repeat match goal with H : _ \/ _ |- _ => destruct H as [H|H] end;
      destruct H as [rest H]; eexists; exists rest; (split; [|exact H]);
      simpl; tauto.
  - intros (p & rest & Hin & ->). simpl in Hin.
    repeat match goal with H : _ \/ _ |- _ => destruct H as [H|H] end;
      try contradiction; subst p; eauto 10.
Qed.

Lemma fold_append_filter (keep : string -> bool) (lines acc : list string) :
  fold_left (fun processed line =>
               if keep line then (processed ++ [line])%list else processed)
            lines acc
  = (acc ++ filter keep lines)%list.
Proof.
  revert acc. induction lines as [|l lines IH]; intros acc; simpl.
  - now rewrite app_nil_r.
  - rewrite IH. destruct (keep l); [now rewrite <- app_assoc | reflexivity].
Qed.

Lemma processed_diff_filter (diff_text : string) :
  processed_diff diff_text = filter keep_line (split_lines diff_text).
Proof. unfold processed_diff. now rewrite fold_append_filter. Qed.

Lemma filter_subsequence {A} (f : A -> bool) (l : list A) :
  subsequence (filter f l) l.
Proof.
  induction l as [|x l IH]; simpl; [constructor|].
  destruct (f x); now constructor.
Qed.

Lemma filter_permutation {A} (f : A -> bool) (l l' : list A) :
  Permutation l l' -> Permutation (filter f l) (filter f l').
Proof.
  induction 1 as [|x l l' _ IH|x y l|l l' l'' _ IH1 _ IH2]; simpl.
  - constructor.
  - destruct (f x); [now constructor | assumption].
  - destruct (f x), (f y); try reflexivity. apply perm_swap.
  - now transitivity (filter f l').
Qed.

Lemma filter_count_occ (f : string -> bool) (l : list string) (x : string) :
  count_occ string_dec (filter f l) x
  = if f x then count_occ string_dec l x else O.
Proof.
  induction l as [|y l IH]; simpl; [now destruct (f x)|].
  destruct (string_dec y x) as [->|Hyx].
  - destruct (f x) eqn:Hfx; simpl; [|exact IH].
    destruct (string_dec x x); [now rewrite IH | contradiction].
  - destruct (f y); simpl; [|exact IH].
    destruct (string_dec y x); [contradiction | exact IH].
Qed.

Lemma append_assoc (x y z : string) : (x ++ y) ++ z = x ++ y ++ z.
Proof. induction x as [|c x IH]; simpl; [reflexivity | now rewrite IH]. Qed.

Lemma split_lines_not_nil (s : string) : split_lines s <> [].
Proof.
  destruct s as [|c s]; simpl; [discriminate|].
  destruct (Ascii.eqb c LF); [discriminate|].
  destruct (split_lines s); discriminate.
Qed.

Lemma split_lines_app_nl (x y : string) :
  split_lines (x ++ nl ++ y) = (split_lines x ++ split_lines y)%list.
Proof.
  induction x as [|c x IH]; simpl; [reflexivity|].
  change (String LF y) with (nl ++ y). rewrite IH.
  destruct (Ascii.eqb c LF); [reflexivity|].
  pose proof (split_lines_not_nil x) as Hx.
  destruct (split_lines x); [contradiction | reflexivity].
Qed.

Lemma split_lines_one_line (s : string) :
  one_line s = true -> split_lines s = [s].
Proof.
  induction s as [|c s IH]; simpl; [reflexivity|].
  destruct (Ascii.eqb c LF); simpl; [discriminate|].
  intros H. now rewrite (IH H).
Qed.

Lemma split_lines_are_lines (s : string) :
  Forall (fun line => one_line line = true) (split_lines s).
Proof.
  induction s as [|c s IH]; simpl; [now repeat constructor|].
  destruct (Ascii.eqb c LF) eqn:Hc; [now constructor|].
  destruct (split_lines s) as [|l ls]; [now repeat constructor; simpl; rewrite Hc|].
  inversion IH as [|? ? Hl Hls]; subst.
  constructor; [simpl; now rewrite Hc | assumption].
Qed.

Lemma split_join_lines (ls : list string) :
  ls <> [] -> Forall (fun line => one_line line = true) ls ->
  split_lines (join nl ls) = ls.
Proof.
  unfold join. induction ls as [|x ls IH]; [contradiction|].
  intros _ Hall. inversion Hall as [|? ? Hx Hls]; subst.
  destruct ls as [|y ls].
  - now apply split_lines_one_line.
  - change (String.concat nl (x :: y :: ls))
      with (x ++ nl ++ String.concat nl (y :: ls)).
    rewrite split_lines_app_nl, (split_lines_one_line x Hx), IH;
      [reflexivity | discriminate | assumption].
Qed.

Lemma filter_Forall {A} (P : A -> Prop) (f : A -> bool) (l : list A) :
  Forall P l -> Forall P (filter f l).
Proof.
  induction 1 as [|x l Hx _ IH]; simpl; [constructor|].
  destruct (f x); [now constructor | assumption].
Qed.

(* ================================================================= *)
(** ** The diff filter *)

(** Context lines, blank lines, binary notices and the no-newline marker
    start with none of the prefixes. *)
Example lines_without_prefix_are_dropped :
  keep_line " import os" = false
  /\ keep_line EmptyString = false
  /\ keep_line "Binary files a/logo.png and b/logo.png differ" = false
  /\ keep_line "\ No newline at end of file" = false.
Proof. repeat split. Qed.

(** C1.  For every diff text, the filter keeps exactly the lines that start
    with one of ['+'], ['-'], ['@@'], ['diff --git'], ['---'], ['+++'] or
    ['index ']: a line is in the result if and only if it is a line of the
    text and starts with a listed prefix; a kept line is kept as many times
    as it occurs and every other line is dropped altogether; and the order
    of the input lines plays no part, since rearranging the input lines only
    rearranges the result. *)
Theorem filter_keeps_exactly_the_prefixed_lines (diff_text : string) :
  (forall line,
      In line (processed_diff diff_text)
      <-> In line (split_lines diff_text) /\ starts_with_listed_prefix line)
  /\ (forall line,
         starts_with_listed_prefix line ->
         count_occ string_dec (processed_diff diff_text) line
         = count_occ string_dec (split_lines diff_text) line)
  /\ (forall line,
         ~ starts_with_listed_prefix line ->
         count_occ string_dec (processed_diff diff_text) line = O)
  /\ (forall other_text,
         Permutation (split_lines diff_text) (split_lines other_text) ->
         Permutation (processed_diff diff_text) (processed_diff other_text)).
Proof.
  rewrite processed_diff_filter.
  split; [|split; [|split]].
  - intros line. rewrite filter_In, keep_line_spec. reflexivity.
  - intros line Hp. apply keep_line_spec in Hp.
    now rewrite filter_count_occ, Hp.
  - intros line Hp. rewrite filter_count_occ.
    destruct (keep_line line) eqn:Hk; [|reflexivity].
    apply keep_line_spec in Hk. contradiction.
  - intros other_text Hperm. rewrite processed_diff_filter.
    now apply filter_permutation.
Qed.

(** C10.  For every diff text, the filtered lines are a subsequence of the
    lines of the diff text: each retained line is a line of the input, kept
    verbatim and in the input's relative order.  In the file's block they
    are the lines that follow the [File:] header. *)
Theorem retained_lines_are_a_subsequence (diff_text : string) :
  subsequence (processed_diff diff_text) (split_lines diff_text)
  /\ (forall a_path,
         processed_diff diff_text <> [] ->
         split_lines (file_diff a_path (processed_diff diff_text))
         = (split_lines ("File: " ++ a_path) ++ processed_diff diff_text)%list).
Proof.
  split.
  - rewrite processed_diff_filter. apply filter_subsequence.
  - intros a_path Hne. unfold file_diff.
    replace (("File: " ++ a_path ++ nl) ++ join nl (processed_diff diff_text))
      with (("File: " ++ a_path) ++ nl ++ join nl (processed_diff diff_text))
      by now rewrite !append_assoc.
    rewrite split_lines_app_nl. f_equal. apply split_join_lines; [assumption|].
    rewrite processed_diff_filter.
    apply filter_Forall, split_lines_are_lines.
Qed.

(* ================================================================= *)
(** ** The diff bundle *)

Lemma bind_ret {A B} (a : A) (k : A -> io B) : bind (ret a) k = k a.
Proof. unfold bind, ret. now destruct (k a). Qed.

Lemma bind_pure {A B} (log : list event) (a : A) (k : A -> io B) :
  bind (log, inr a) k = ((log ++ log_of (k a))%list, outcome_of (k a)).
Proof. unfold bind, log_of, outcome_of. now destruct (k a). Qed.

Lemma bind_raise {A B} (log : list event) (e : exn) (k : A -> io B) :
  bind (log, inl e) k = (log, inl e).
Proof. reflexivity. Qed.

Lemma io_eta {A} (m : io A) : m = (log_of m, outcome_of m).
Proof. now destruct m. Qed.

Lemma diff_item_spec (repo : Repo) (diffs : list string) (a_path : string) :
  diff_item repo diffs a_path
  = (warning repo a_path,
     inr (diffs ++ (if yields_content repo a_path
                    then [block repo a_path] else []))%list).
Proof.
  unfold diff_item, warning, yields_content, block, filtered_diff.
  destruct (git_diff repo a_path) as [diff_text|e].
  - destruct (processed_diff diff_text) as [|l ls].
    + unfold ret. now rewrite app_nil_r.
    + unfold ret, file_diff. now rewrite !append_assoc.
  - unfold print, emit, ret. simpl. now rewrite app_nil_r.
Qed.

Lemma diff_items_spec (repo : Repo) (items diffs : list string) :
  diff_items repo items diffs
  = (flat_map (warning repo) items,
     inr (diffs ++ map (block repo) (filter (yields_content repo) items))%list).
Proof.
  revert diffs. induction items as [|p items IH]; intros diffs; simpl.
  - unfold ret. now rewrite app_nil_r.
  - rewrite diff_item_spec, bind_pure, IH. unfold log_of, outcome_of. simpl.
    f_equal. f_equal. rewrite <- app_assoc. f_equal.
    now destruct (yields_content repo p).
Qed.

Lemma get_git_diffs_spec (git : Git) (repo_path : string) (repo : Repo) :
  git repo_path = inr repo ->
  get_git_diffs git repo_path
  = (warnings repo, inr (join (nl ++ nl) (blocks repo))).
Proof.
  intros Hrepo. unfold get_git_diffs, lift. rewrite Hrepo, bind_pure.
  rewrite diff_items_spec, bind_pure. unfold log_of, outcome_of, ret. simpl.
  now rewrite app_nil_r.
Qed.

Lemma join_empty (sep b : string) (bs : list string) :
  join sep (b :: bs) = EmptyString -> b = EmptyString.
Proof.
  unfold join. destruct bs as [|b' bs]; simpl; [easy|].
  now destruct b.
Qed.

Lemma block_of_content (repo : Repo) (a_path : string) :
  yields_content repo a_path = true ->
  exists line lines,
    filtered_diff repo a_path = Some (line :: lines)
    /\ block repo a_path = "File: " ++ a_path ++ nl ++ join nl (line :: lines).
Proof.
  unfold yields_content, block.
  destruct (filtered_diff repo a_path) as [[|line lines]|]; try discriminate.
  intros _. now exists line, lines.
Qed.

Lemma filter_length_le {A} (f : A -> bool) (l : list A) :
  (List.length (filter f l) <= List.length l)%nat.
Proof.
  induction l as [|x l IH]; simpl; [lia|]. destruct (f x); simpl; lia.
Qed.

(** C5.  For every list of modified files, the bundle is the join, with one
    blank line between blocks, of one block per file whose filtered diff is
    not empty; each block is the line [File: <path>] followed by the file's
    filtered diff lines; the files with a block are a subsequence of the
    reported files, so blocks keep the reported order and are at most as
    many as the files; a file without filtered content has no block; and
    the bundle is the empty string exactly when no file yields content. *)
Theorem bundle_is_join_of_blocks
  (git : Git) (repo_path : string) (repo : Repo) :
  git repo_path = inr repo ->
  let files := filter (yields_content repo) (index_diff repo) in
  outcome_of (get_git_diffs git repo_path)
  = inr (join (nl ++ nl) (map (block repo) files))
  /\ nl ++ nl = String LF (String LF EmptyString)
  /\ (forall a_path,
         In a_path files <->
         In a_path (index_diff repo)
         /\ exists line lines,
             filtered_diff repo a_path = Some (line :: lines)
             /\ block repo a_path
                = "File: " ++ a_path ++ nl ++ join nl (line :: lines))
  /\ subsequence files (index_diff repo)
  /\ (List.length (map (block repo) files) <= List.length (index_diff repo))%nat
  /\ (files = [] <-> outcome_of (get_git_diffs git repo_path) = inr EmptyString).
Proof.
  intros Hrepo files.
  rewrite (get_git_diffs_spec git repo_path repo Hrepo).
  unfold outcome_of, blocks. simpl. fold files.
  split; [reflexivity|]. split; [reflexivity|].
  split; [|split; [|split]].
  - intros a_path. unfold files. rewrite filter_In. split.
    + intros [Hin Hy]. split; [assumption|]. now apply block_of_content.
    + intros [Hin (line & lines & Hf & _)]. split; [assumption|].
      unfold yields_content. now rewrite Hf.
  - apply filter_subsequence.
  - rewrite length_map. apply filter_length_le.
  - split.
    + intros ->. reflexivity.
    + intros Hempty. injection Hempty as Hempty.
      destruct files as [|p ps] eqn:Hfiles; [reflexivity|].
      apply join_empty in Hempty.
      assert (Hp : In p files) by (rewrite Hfiles; now left).
      unfold files in Hp. apply filter_In in Hp. destruct Hp as [_ Hy].
      apply block_of_content in Hy. destruct Hy as (line & lines & _ & Hb).
      rewrite Hb in Hempty. discriminate.
Qed.

(* ================================================================= *)
(** ** One attempt *)

(** Case analysis on the variables and lookups the goal is stuck on. *)
Ltac split_cases :=
  repeat (cbn;
          match goal with
          | |- context [match ?x with _ => _ end] => is_var x; destruct x
          | |- context [lookup ?k ?items] => destruct (lookup k items)
          | |- context [contains ?k ?s] => destruct (contains k s)
          | |- context [existsb ?f ?l] => destruct (existsb f l)
          | |- context [0 <? ?n] => destruct (0 <? n)
          end);
  cbn.

Ltac unfold_io :=
  unfold on_200, bind, lift, ret, raise, emit, print, log_of, outcome_of,
    contains_key, getitem, getitem0, len, strip_method in *.

(** The status-200 branch prints at most the unexpected-format line, and
    always leaves the function: by [return] or by an exception. *)
Lemma on_200_ends (data : value) :
  (exists e, on_200 data = ([], inl e))
  \/ (exists s, on_200 data = ([], inr (Returned (Some s))))
  \/ on_200 data = ([PrintUnexpected data], inr (Returned None)).
Proof.
  unfold_io. split_cases; eauto.
Qed.

Lemma on_200_lacks_choices (data : value) :
  lacks_choices data = true ->
  on_200 data = ([PrintUnexpected data], inr (Returned None)).
Proof.
  unfold lacks_choices. unfold_io. intros H.
  destruct data as [| | | | s | l | items]; try discriminate.
  - apply negb_true_iff in H. now rewrite H.
  - apply negb_true_iff in H. now rewrite H.
  - destruct (lookup "choices" items) as [[| | | | [|] | [|] | [|]]|];
      try discriminate; reflexivity.
Qed.

Lemma on_200_first_choice (data : value) (content : string) :
  first_choice_content data = Some content ->
  on_200 data = ([], inr (Returned (Some (strip content)))).
Proof.
  unfold first_choice_content. intros H.
  destruct data as [| | | | | | items]; try discriminate.
  destruct (lookup "choices" items)
    as [[| | | | | [|[| | | | | |choice] more] |]|] eqn:Hc; try discriminate.
  destruct (lookup "message" choice) as [[| | | | | | message]|] eqn:Hm;
    try discriminate.
  destruct (lookup "content" message) as [[| | | | text | |]|] eqn:Ht;
    try discriminate.
  injection H as <-.
  unfold_io. rewrite Hc. simpl. rewrite Hm, Ht. reflexivity.
Qed.

Lemma on_200_expected_shape (data : value) :
  expected_shape data = true ->
  exists log r, on_200 data = (log, inr (Returned r)).
Proof.
  unfold expected_shape. intros H. apply orb_true_iff in H.
  destruct H as [H|H].
  - exists [PrintUnexpected data], None. now apply on_200_lacks_choices.
  - destruct (first_choice_content data) as [content|] eqn:Hc; [|discriminate].
    exists [], (Some (strip content)). now apply on_200_first_choice.
Qed.

(** Every other body makes the branch raise. *)
Lemma on_200_other_shapes_raise (data : value) :
  expected_shape data = false -> exists e, on_200 data = ([], inl e).
Proof.
  intros H. destruct (on_200_ends data) as [Hraise|[[s Hs]|Hnone]];
    [exact Hraise| |]; exfalso; revert H;
    unfold expected_shape, lacks_choices, first_choice_content.
  - revert Hs. unfold_io. split_cases; try discriminate; intros _ Hf;
      discriminate.
  - revert Hnone. unfold_io. split_cases; try discriminate; intros _ Hf;
      discriminate.
Qed.

Lemma retryable_false (o : http_outcome) :
  retryable o = false -> exists text data, o = Response 200 text data.
Proof.
  destruct o as [e|status_code text data]; simpl; [discriminate|].
  intros H. apply negb_false_iff, Z.eqb_eq in H. subst. now exists text, data.
Qed.

Lemma backoff_spec (attempt : Z) :
  backoff attempt
  = (if attempt <? MAX_RETRIES - 1
     then [Print ("Retrying in " ++ str (delay_after attempt) ++ " seconds...");
           Sleep (delay_after attempt)]
     else [],
     inr tt).
Proof.
  unfold backoff, delay_after. destruct (attempt <? MAX_RETRIES - 1); reflexivity.
Qed.

Lemma sleeps_app (l1 l2 : list event) :
  sleeps (l1 ++ l2) = (sleeps l1 ++ sleeps l2)%list.
Proof.
  induction l1 as [|ev l1 IH]; simpl; [reflexivity|].
  destruct ev; simpl; now rewrite IH.
Qed.

Lemma posts_app (l1 l2 : list event) :
  posts (l1 ++ l2) = (posts l1 ++ posts l2)%list.
Proof. apply filter_app. Qed.

Lemma backoff_effects (attempt : Z) :
  sleeps (log_of (backoff attempt))
  = (if attempt <? MAX_RETRIES - 1 then [delay_after attempt] else [])
  /\ posts (log_of (backoff attempt)) = [].
Proof.
  rewrite backoff_spec. now destruct (attempt <? MAX_RETRIES - 1).
Qed.

(* ================================================================= *)
(** ** The retry loop *)

Section RetryLoop.

Variable http : Http.
Variable prompt : string.

(** The request of every attempt. *)
Local Abbreviation request := (Post API_ENDPOINT (payload prompt) headers 30).

(** A failed attempt: the POST, one line that reports the failure, and the
    body of the loop goes on to the backoff. *)
Lemma attempt_try_retryable (attempt : Z) :
  retryable (http attempt) = true ->
  exists line, attempt_try http prompt attempt = ([request; Print line], inr Next).
Proof.
  unfold attempt_try, retryable.
  destruct (http attempt) as [e|status_code text data]; intros H.
  - eexists. reflexivity.
  - apply negb_true_iff in H. rewrite H. eexists. reflexivity.
Qed.

Lemma attempt_try_200 (attempt : Z) (text : string) (data : value) :
  http attempt = Response 200 text data ->
  attempt_try http prompt attempt
  = (request :: log_of (on_200 data), outcome_of (on_200 data)).
Proof.
  intros H. unfold attempt_try. rewrite H. simpl Z.eqb. cbv iota.
  unfold emit. rewrite bind_pure. reflexivity.
Qed.

Lemma attempts_retry (attempt : Z) (rest : list Z) :
  retryable (http attempt) = true ->
  exists line,
    log_of (attempts http prompt (attempt :: rest))
    = (request :: Print line
         :: log_of (backoff attempt) ++ log_of (attempts http prompt rest))%list
    /\ outcome_of (attempts http prompt (attempt :: rest))
       = outcome_of (attempts http prompt rest).
Proof.
  intros H. destruct (attempt_try_retryable attempt H) as [line Ht].
  exists line. cbn [attempts]. rewrite Ht, bind_pure.
  rewrite !backoff_spec, bind_pure. split; reflexivity.
Qed.

Lemma attempts_200_raises
  (attempt : Z) (rest : list Z) (text : string) (data : value)
  (log : list event) (e : exn) :
  http attempt = Response 200 text data ->
  on_200 data = (log, inl e) ->
  attempts http prompt (attempt :: rest) = (request :: log, inl e).
Proof.
  intros H H200. cbn [attempts].
  rewrite (attempt_try_200 attempt text data H), H200.
  reflexivity.
Qed.

Lemma attempts_200_returns
  (attempt : Z) (rest : list Z) (text : string) (data : value)
  (log : list event) (r : option string) :
  http attempt = Response 200 text data ->
  on_200 data = (log, inr (Returned r)) ->
  attempts http prompt (attempt :: rest) = (request :: log, inr r).
Proof.
  intros H H200. cbn [attempts].
  rewrite (attempt_try_200 attempt text data H), H200.
  unfold log_of, outcome_of. cbn [fst snd]. rewrite bind_pure.
  unfold ret, log_of, outcome_of. cbn [fst snd]. now rewrite app_nil_r.
Qed.

(** Whatever a status-200 attempt does, it is the last thing the loop does:
    one POST, no sleep, nothing after. *)
Lemma attempts_200_stops
  (attempt : Z) (rest : list Z) (text : string) (data : value) :
  http attempt = Response 200 text data ->
  posts (log_of (attempts http prompt (attempt :: rest))) = [request]
  /\ sleeps (log_of (attempts http prompt (attempt :: rest))) = [].
Proof.
  intros H.
  destruct (on_200_ends data) as [[e H200]|[[s H200]|H200]].
  - now rewrite (attempts_200_raises _ rest _ _ _ _ H H200).
  - now rewrite (attempts_200_returns _ rest _ _ _ _ H H200).
  - now rewrite (attempts_200_returns _ rest _ _ _ _ H H200).
Qed.

(** The sleeps and the POSTs of the loop depend on how many attempts failed,
    not on how each of them failed. *)
Lemma attempts_effects (todo : list Z) :
  sleeps (log_of (attempts http prompt todo))
  = map delay_after
      (filter (fun attempt => attempt <? MAX_RETRIES - 1)
              (firstn (failed_attempts http todo) todo))
  /\ posts (log_of (attempts http prompt todo))
     = repeat request
              (Nat.min (S (failed_attempts http todo)) (List.length todo)).
Proof.
  induction todo as [|attempt rest [IHs IHp]]; [now split|].
  cbn [failed_attempts]. destruct (retryable (http attempt)) eqn:Hr.
  - destruct (attempts_retry attempt rest Hr) as [line [-> _]].
    destruct (backoff_effects attempt) as [Hbs Hbp].
    split.
    + cbn [sleeps]. rewrite sleeps_app, Hbs, IHs. cbn [firstn filter].
      now destruct (attempt <? MAX_RETRIES - 1).
    + change (posts (?ev :: Print line :: ?l)) with (ev :: posts l).
      now rewrite posts_app, Hbp, IHp.
  - destruct (retryable_false _ Hr) as (text & data & H).
    destruct (attempts_200_stops attempt rest text data H) as [Hp Hs].
    now rewrite Hp, Hs.
Qed.

Lemma failed_attempts_le (todo : list Z) :
  (failed_attempts http todo <= List.length todo)%nat.
Proof.
  induction todo as [|a rest IH]; simpl; [lia|].
  destruct (retryable (http a)); lia.
Qed.

(** When every attempt fails the loop ends, the failure is reported and the
    function returns [None]. *)
Lemma attempts_exhausted (todo : list Z) :
  failed_attempts http todo = List.length todo ->
  outcome_of (attempts http prompt todo) = inr None
  /\ exists before,
      log_of (attempts http prompt todo)
      = (before ++ [Print "Failed to get response from LLM after all retries."])%list.
Proof.
  induction todo as [|attempt rest IH]; intros H.
  - split; [reflexivity | now exists []].
  - cbn [failed_attempts List.length] in H.
    destruct (retryable (http attempt)) eqn:Hr; [|discriminate].
    injection H as H. destruct (IH H) as [Hout [before Hlog]].
    destruct (attempts_retry attempt rest Hr) as [line [-> ->]].
    split; [assumption|]. rewrite Hlog.
    exists (request :: Print line :: log_of (backoff attempt) ++ before)%list.
    cbn [app]. now rewrite <- app_assoc.
Qed.

(** With bodies of the expected shapes the loop returns. *)
Lemma attempts_returns (todo : list Z) :
  (forall attempt text data,
      In attempt todo -> http attempt = Response 200 text data ->
      expected_shape data = true) ->
  exists r, outcome_of (attempts http prompt todo) = inr r.
Proof.
  induction todo as [|attempt rest IH]; intros Hshape.
  - now exists None.
  - destruct (retryable (http attempt)) eqn:Hr.
    + destruct (attempts_retry attempt rest Hr) as [line [_ ->]].
      apply IH. intros a text data Hin. apply Hshape. now right.
    + destruct (retryable_false _ Hr) as (text & data & H).
      destruct (on_200_expected_shape data) as (log & r & H200).
      * apply (Hshape attempt text data); [now left | assumption].
      * exists r. now rewrite (attempts_200_returns _ rest _ _ _ _ H H200).
Qed.

(** A body of any other shape, received before the attempts run out, makes
    the loop raise. *)
Lemma attempts_raises (attempt : Z) (rest : list Z) (text : string) (data : value) :
  http attempt = Response 200 text data ->
  expected_shape data = false ->
  exists e, attempts http prompt (attempt :: rest) = ([request], inl e).
Proof.
  intros H Hshape. destruct (on_200_other_shapes_raise data Hshape) as [e H200].
  exists e. now apply (attempts_200_raises _ rest text data).
Qed.

End RetryLoop.

Lemma range_MAX_RETRIES : range MAX_RETRIES = [0; 1; 2].
Proof. reflexivity. Qed.

(* ================================================================= *)
(** ** The API client *)

(** C2, amended.  When all three attempts fail, the client sleeps
    [BASE_DELAY * 2^attempt] seconds after attempts 0 and 1, that is 1 and 2
    seconds, and does not sleep after attempt 2, the last: the backoff adds
    up to 3 seconds.  It then prints the terminal failure line and returns
    [None]. *)
Theorem backoff_when_every_attempt_fails (http : Http) (prompt : string) :
  (forall attempt,
      In attempt (range MAX_RETRIES) -> retryable (http attempt) = true) ->
  (exists failure0 failure1 failure2,
      call_llm_api http prompt
      = ([Post API_ENDPOINT (payload prompt) headers 30; Print failure0;
          Print "Retrying in 1 seconds..."; Sleep 1;
          Post API_ENDPOINT (payload prompt) headers 30; Print failure1;
          Print "Retrying in 2 seconds..."; Sleep 2;
          Post API_ENDPOINT (payload prompt) headers 30; Print failure2;
          Print "Failed to get response from LLM after all retries."],
         inr None))
  /\ sleeps (log_of (call_llm_api http prompt))
     = [BASE_DELAY * 2 ^ 0; BASE_DELAY * 2 ^ 1]
  /\ total (sleeps (log_of (call_llm_api http prompt))) = 3.
Proof.
  intros Hfail. unfold call_llm_api. rewrite range_MAX_RETRIES in *.
  assert (H0 : retryable (http 0) = true) by (apply Hfail; simpl; tauto).
  assert (H1 : retryable (http 1) = true) by (apply Hfail; simpl; tauto).
  assert (H2 : retryable (http 2) = true) by (apply Hfail; simpl; tauto).
  destruct (attempts_retry http prompt 0 [1; 2] H0) as (l0 & Hl0 & Ho0).
  destruct (attempts_retry http prompt 1 [2] H1) as (l1 & Hl1 & Ho1).
  destruct (attempts_retry http prompt 2 [] H2) as (l2 & Hl2 & Ho2).
  assert (Hrun : attempts http prompt [0; 1; 2]
                 = ([Post API_ENDPOINT (payload prompt) headers 30; Print l0;
                     Print "Retrying in 1 seconds..."; Sleep 1;
                     Post API_ENDPOINT (payload prompt) headers 30; Print l1;
                     Print "Retrying in 2 seconds..."; Sleep 2;
                     Post API_ENDPOINT (payload prompt) headers 30; Print l2;
                     Print "Failed to get response from LLM after all retries."],
                    inr None)).
  { rewrite (io_eta (attempts http prompt [0; 1; 2])).
    rewrite Hl0, Ho0, Hl1, Ho1, Hl2, Ho2. reflexivity. }
  split; [now exists l0, l1, l2|].
  rewrite Hrun. split; reflexivity.
Qed.

(** C3, amended.  For every sequence of HTTP outcomes made of network
    exceptions, non-200 statuses and 200 responses whose body either has no
    [choices] to read (an object without the key or with an empty array,
    string or object under it; an array or a string in which ["choices"]
    does not occur) or is an object whose [choices] array starts with an
    object that has a string at [message.content], [call_llm_api] returns a
    message or [None] and raises nothing.  Network exceptions and non-200
    statuses alike consume one attempt each and trigger the same backoff:
    with [failed] leading failures of either kind there are
    [min (failed + 1) 3] POSTs and the sleeps are [BASE_DELAY * 2^attempt]
    for the failed attempts but the last of the three.  When all attempts
    fail the result is [None]. *)
Theorem call_llm_api_returns_on_expected_shapes (http : Http) (prompt : string) :
  (forall attempt text data,
      In attempt (range MAX_RETRIES) ->
      http attempt = Response 200 text data ->
      expected_shape data = true) ->
  let run := call_llm_api http prompt in
  let failed := failed_attempts http (range MAX_RETRIES) in
  (exists r, outcome_of run = inr r)
  /\ List.length (posts (log_of run)) = Nat.min (failed + 1) 3
  /\ sleeps (log_of run)
     = map (fun attempt => BASE_DELAY * 2 ^ attempt)
           (range (Z.min (Z.of_nat failed) (MAX_RETRIES - 1)))
  /\ (failed = 3%nat -> outcome_of run = inr None).
Proof.
  intros Hshape run failed. unfold run, call_llm_api.
  destruct (attempts_effects http prompt (range MAX_RETRIES)) as [Hs Hp].
  pose proof (failed_attempts_le http (range MAX_RETRIES)) as Hle.
  fold failed in Hs, Hp, Hle.
  split; [now apply attempts_returns|]. split; [|split].
  - rewrite Hp, repeat_length, range_MAX_RETRIES. simpl List.length. lia.
  - rewrite Hs, range_MAX_RETRIES. rewrite range_MAX_RETRIES in Hle.
    simpl in Hle.
    destruct failed as [|[|[|[|n]]]]; try reflexivity. lia.
  - intros H3. apply attempts_exhausted. fold failed. now rewrite H3.
Qed.

(** C4, amended.  A 200 response ends the call at once whatever its body: the
    POST that received it is the last, and no sleep follows.  When the body
    is an object without [choices] or with an empty [choices] array (or an
    empty string or object there), or an array or string in which
    ["choices"] does not occur, the call prints the unexpected-format line
    and returns [None]; as the first response, after exactly one attempt. *)
Theorem malformed_200_returns_at_once
  (http : Http) (prompt : string) (attempt : Z) (rest : list Z)
  (text : string) (data : value) :
  http attempt = Response 200 text data ->
  (posts (log_of (attempts http prompt (attempt :: rest)))
   = [Post API_ENDPOINT (payload prompt) headers 30]
   /\ sleeps (log_of (attempts http prompt (attempt :: rest))) = [])
  /\ (lacks_choices data = true ->
      attempts http prompt (attempt :: rest)
      = ([Post API_ENDPOINT (payload prompt) headers 30; PrintUnexpected data],
         inr None)
      /\ (attempt = 0 ->
          call_llm_api http prompt
          = ([Post API_ENDPOINT (payload prompt) headers 30;
              PrintUnexpected data],
             inr None))).
Proof.
  intros H. split; [now apply (attempts_200_stops _ _ _ _ text data)|].
  intros Hlacks. pose proof (on_200_lacks_choices data Hlacks) as H200.
  split.
  - now apply (attempts_200_returns _ _ _ _ text data).
  - intros ->. unfold call_llm_api. rewrite range_MAX_RETRIES.
    now apply (attempts_200_returns _ _ _ _ text data).
Qed.

(** C8.  For every prompt, every POST of [call_llm_api] goes to the
    configured endpoint with the same JSON payload: the model name, the
    system message followed by one user message that holds the prompt,
    temperature 0.3 and max_tokens 500; with the headers
    [Content-Type: application/json] and [Authorization: Bearer <API_KEY>];
    and a timeout of 30 seconds.  There are between one and three POSTs. *)
Theorem every_post_sends_the_fixed_payload (http : Http) (prompt : string) :
  (exists n,
      (1 <= n <= 3)%nat
      /\ posts (log_of (call_llm_api http prompt))
         = repeat (Post API_ENDPOINT (payload prompt) headers 30) n)
  /\ payload prompt
     = VDict
         [("model", VStr MODEL_NAME);
          ("messages",
           VList
             [VDict [("role", VStr "system"); ("content", VStr SYSTEM_PROMPT)];
              VDict [("role", VStr "user"); ("content", VStr prompt)]]);
          ("temperature", VFloat 3 (-1));
          ("max_tokens", VInt 500)]
  /\ MODEL_NAME = "llama3"
  /\ headers
     = [("Content-Type", "application/json");
        ("Authorization", "Bearer " ++ API_KEY)]
  /\ API_KEY = "ollama".
Proof.
  split; [|repeat split].
  unfold call_llm_api.
  destruct (attempts_effects http prompt (range MAX_RETRIES)) as [_ Hp].
  exists (Nat.min (S (failed_attempts http (range MAX_RETRIES)))
                  (List.length (range MAX_RETRIES))).
  split; [|exact Hp].
  rewrite range_MAX_RETRIES. simpl List.length. lia.
Qed.

(* ================================================================= *)
(** ** The driver *)

Lemma render_spec (message : string) :
  render message
  = ([Print "Suggested commit message:"; Print separator; Print message;
      Print separator],
     inr tt).
Proof. reflexivity. Qed.


(** What the [try] statement does, by what the generation did. *)
Lemma main_try_spec (http : Http) (diffs : string) :
  main_try http diffs
  = ((log_of (generate_commit_message http diffs)
      ++ match outcome_of (generate_commit_message http diffs) with
         | inr (Some message) =>
             [Print "Suggested commit message:"; Print separator;
              Print message; Print separator]
         | inr None => [Print "No commit message generated."]
         | inl e =>
             [PrintError e;
              Print "Please try again later or write the commit message manually."]
         end)%list,
     inr tt).
Proof.
  unfold main_try.
  destruct (generate_commit_message http diffs) as [log [e|[message|]]];
    reflexivity.
Qed.

Lemma get_git_diffs_raises (git : Git) (repo_path : string) (e : exn) :
  git repo_path = inl e -> get_git_diffs git repo_path = ([], inl e).
Proof. intros H. unfold get_git_diffs, lift. now rewrite H. Qed.

Lemma get_git_diffs_returns (git : Git) (repo_path diffs : string) :
  outcome_of (get_git_diffs git repo_path) = inr diffs ->
  exists repo,
    git repo_path = inr repo
    /\ get_git_diffs git repo_path = (warnings repo, inr diffs).
Proof.
  intros H. destruct (git repo_path) as [e|repo] eqn:Hgit.
  - rewrite (get_git_diffs_raises git repo_path e Hgit) in H. discriminate.
  - exists repo. split; [reflexivity|].
    rewrite (io_eta (get_git_diffs git repo_path)), H.
    now rewrite (get_git_diffs_spec git repo_path repo Hgit).
Qed.

Lemma posts_warnings (repo : Repo) : posts (warnings repo) = [].
Proof.
  unfold warnings. induction (index_diff repo) as [|p ps IH]; [reflexivity|].
  cbn [flat_map]. rewrite posts_app, IH. unfold warning.
  now destruct (git_diff repo p).
Qed.

(** In a repository, [main] extracts the bundle and goes on by it. *)
Lemma main_in_repository (git : Git) (http : Http) (repo_path diffs : string) :
  outcome_of (get_git_diffs git repo_path) = inr diffs ->
  main git http repo_path
  = if is_empty diffs
    then ((log_of (get_git_diffs git repo_path)
           ++ [Print "No changes detected in the repository."])%list,
          inr tt)
    else ((log_of (get_git_diffs git repo_path)
           ++ log_of (main_try http diffs))%list,
          inr tt).
Proof.
  intros H. destruct (get_git_diffs_returns git repo_path diffs H)
    as (repo & Hgit & Hdiffs).
  unfold main, is_git_repository. rewrite Hgit, bind_ret. cbn [negb].
  rewrite Hdiffs, bind_pure. unfold log_of at 2 4. cbn [fst].
  destruct (is_empty diffs); [reflexivity|].
  now rewrite main_try_spec.
Qed.

(** A path that [git.Repo] rejects as not being a repository: the handled
    failure of the first stage. *)
Lemma main_invalid_repository (git : Git) (http : Http) (repo_path : string) :
  git repo_path = inl InvalidGitRepositoryError ->
  main git http repo_path
  = ([Print "Error: The specified path is not a valid git repository."],
     inr tt).
Proof.
  intros H. unfold main, is_git_repository. now rewrite H.
Qed.

(** [main] returns normally once the extraction has returned a bundle, and
    when [git.Repo] raises [InvalidGitRepositoryError]. *)
Lemma main_returns_normally (git : Git) (http : Http) (repo_path : string) :
  (exists diffs, outcome_of (get_git_diffs git repo_path) = inr diffs)
  \/ git repo_path = inl InvalidGitRepositoryError ->
  outcome_of (main git http repo_path) = inr tt
  /\ exit_code (main git http repo_path) = 0.
Proof.
  intros [[diffs H]|H].
  - rewrite (main_in_repository git http repo_path diffs H).
    now destruct (is_empty diffs).
  - now rewrite (main_invalid_repository git http repo_path H).
Qed.

(** Any other exception of [git.Repo] leaves [main] before anything is
    printed. *)
Lemma main_raises_other_errors
  (git : Git) (http : Http) (repo_path : string) (e : exn) :
  git repo_path = inl e -> e <> InvalidGitRepositoryError ->
  main git http repo_path = ([], inl e)
  /\ exit_code (main git http repo_path) = 1.
Proof.
  intros H He. unfold exit_code, main, is_git_repository. rewrite H.
  destruct e; try contradiction; split; reflexivity.
Qed.

(** C6.  A path that does not exist does not name a valid git repository,
    yet [main] prints nothing for it and does not return: the
    [NoSuchPathError] of [git.Repo] leaves [is_git_repository] and [main],
    and the process exits with status 1. *)
Theorem main_crashes_on_missing_path (http : Http) :
  sample_git "/no/such/dir" = inl NoSuchPathError
  /\ main sample_git http "/no/such/dir" = ([], inl NoSuchPathError)
  /\ exit_code (main sample_git http "/no/such/dir") = 1.
Proof. split; [|split]; reflexivity. Qed.

(** C7.  When the repository is valid and the bundle is the empty string,
    [main] prints [No changes detected in the repository.] after the
    warnings of the extraction and returns: nothing is posted, so no prompt
    reaches the network, and the exit status is 0. *)
Theorem empty_bundle_ends_the_run (git : Git) (http : Http) (repo_path : string) :
  outcome_of (get_git_diffs git repo_path) = inr EmptyString ->
  main git http repo_path
  = ((log_of (get_git_diffs git repo_path)
      ++ [Print "No changes detected in the repository."])%list,
     inr tt)
  /\ posts (log_of (main git http repo_path)) = []
  /\ exit_code (main git http repo_path) = 0.
Proof.
  intros H. rewrite (main_in_repository git http repo_path _ H).
  cbn [is_empty]. split; [reflexivity|].
  destruct (get_git_diffs_returns git repo_path _ H) as (repo & _ & ->).
  unfold log_of. cbn [fst]. rewrite posts_app, posts_warnings.
  split; reflexivity.
Qed.


(* ================================================================= *)
(** ** The theorems at the sample worlds *)

(** The filtered diff of the sample file: the headers and the three changed
    lines, without the context line and the trailing empty line. *)
Example processed_sample_diff :
  processed_diff sample_diff
  = ["diff --git a/a.py b/a.py"; "index 1a2b3c4..5d6e7f8 100644";
     "--- a/a.py"; "+++ b/a.py"; "@@ -1,3 +1,4 @@";
     "+import sys"; "+import json"; "-import re"].
Proof. reflexivity. Qed.

Lemma bundle_is_join_of_blocks_witness :
  sample_git "/work/project" = inr sample_repo
  /\ outcome_of (get_git_diffs sample_git "/work/project")
     = inr (join (nl ++ nl) [block sample_repo "a.py"])
  /\ block sample_repo "a.py"
     = "File: a.py" ++ nl ++ join nl (processed_diff sample_diff).
Proof.
  split; [reflexivity|].
  split; [|reflexivity].
  exact (proj1 (bundle_is_join_of_blocks
                  sample_git "/work/project" sample_repo eq_refl)).
Defined.

Lemma backoff_when_every_attempt_fails_witness :
  (forall attempt,
      In attempt (range MAX_RETRIES) -> retryable (http_500 attempt) = true)
  /\ sleeps (log_of (call_llm_api http_500 "describe the change")) = [1; 2]
  /\ total (sleeps (log_of (call_llm_api http_500 "describe the change"))) = 3.
Proof.
  assert (H : forall attempt,
             In attempt (range MAX_RETRIES) ->
             retryable (http_500 attempt) = true)
    by (intros attempt _; reflexivity).
  split; [exact H|].
  exact (proj2 (backoff_when_every_attempt_fails
                  http_500 "describe the change" H)).
Defined.

(** C2 as stated fails: three attempts answered with status 500 do not
    sleep 1, 2 and 4 seconds, and the backoff does not add up to 7. *)
Lemma three_failures_do_not_sleep_seven_seconds :
  ~ (sleeps (log_of (call_llm_api http_500 "describe the change")) = [1; 2; 4]
     /\ total (sleeps (log_of (call_llm_api http_500 "describe the change"))) = 7).
Proof. intros [H _]. vm_compute in H. discriminate. Qed.

Lemma call_llm_api_returns_on_expected_shapes_witness :
  (forall attempt text data,
      In attempt (range MAX_RETRIES) ->
      http_flaky attempt = Response 200 text data ->
      expected_shape data = true)
  /\ (exists r, outcome_of (call_llm_api http_flaky "describe the change") = inr r)
  /\ List.length (posts (log_of (call_llm_api http_flaky "describe the change")))
     = 2%nat
  /\ sleeps (log_of (call_llm_api http_flaky "describe the change")) = [1].
Proof.
  assert (H : forall attempt text data,
             In attempt (range MAX_RETRIES) ->
             http_flaky attempt = Response 200 text data ->
             expected_shape data = true).
  { intros attempt text data _. unfold http_flaky.
    destruct (attempt =? 0); [discriminate|].
    intros Heq. injection Heq as _ <-. reflexivity. }
  split; [exact H|].
  destruct (call_llm_api_returns_on_expected_shapes
              http_flaky "describe the change" H) as (Hr & Hp & Hs & _).
  split; [exact Hr|]. split; [exact Hp | exact Hs].
Defined.

(** C3 as stated fails: a 200 response whose only choice has no [message]
    makes [call_llm_api] raise [KeyError] instead of returning. *)
Lemma call_llm_api_raises_on_bare_choice :
  outcome_of (call_llm_api http_bare_choice "describe the change") = inl KeyError
  /\ ~ (exists r,
           outcome_of (call_llm_api http_bare_choice "describe the change")
           = inr r).
Proof.
  split; [reflexivity|]. intros [r H]. vm_compute in H. discriminate.
Qed.

Lemma malformed_200_returns_at_once_witness :
  http_empty_object 0 = Response 200 "{}" (VDict [])
  /\ lacks_choices (VDict []) = true
  /\ call_llm_api http_empty_object "describe the change"
     = ([Post API_ENDPOINT (payload "describe the change") headers 30;
         PrintUnexpected (VDict [])],
        inr None).
Proof.
  split; [reflexivity|]. split; [reflexivity|].
  destruct (malformed_200_returns_at_once
              http_empty_object "describe the change" 0 [1; 2] "{}" (VDict [])
              eq_refl) as [_ H].
  destruct (H eq_refl) as [_ H0]. exact (H0 eq_refl).
Defined.

(** C4 as stated fails: the body [{choices: null}] has no non-empty
    [choices] array, yet [call_llm_api] does not return [None] for it: it
    raises [TypeError]. *)
Lemma null_choices_raises_instead_of_returning :
  outcome_of (call_llm_api http_null_choices "describe the change")
  = inl TypeError
  /\ outcome_of (call_llm_api http_null_choices "describe the change")
     <> inr None.
Proof. split; [reflexivity|]. vm_compute. discriminate. Qed.

Lemma empty_bundle_ends_the_run_witness :
  outcome_of (get_git_diffs sample_git "/work/clean") = inr EmptyString
  /\ main sample_git http_feat "/work/clean"
     = ([Print "No changes detected in the repository."], inr tt).
Proof.
  split; [reflexivity|].
  exact (proj1 (empty_bundle_ends_the_run
                  sample_git http_feat "/work/clean" eq_refl)).
Defined.



(* ================================================================= *)
(** ** Further properties of the diff filter *)

Lemma filter_idempotent {A} (f : A -> bool) (l : list A) :
  filter f (filter f l) = filter f l.
Proof.
  induction l as [|x l IH]; simpl; [reflexivity|].
  destruct (f x) eqn:Hx; simpl; [now rewrite Hx, IH | exact IH].
Qed.

Lemma filter_all {A} (f : A -> bool) (l : list A) :
  (forall x, In x l -> f x = true) -> filter f l = l.
Proof.
  induction l as [|x l IH]; intros H; simpl; [reflexivity|].
  rewrite (H x (or_introl eq_refl)), IH; [reflexivity|].
  intros y Hy. apply H. now right.
Qed.

Lemma join_split_lines (s : string) : join nl (split_lines s) = s.
Proof.
  unfold join. induction s as [|c s IH]; [reflexivity|].
  cbn [split_lines]. pose proof (split_lines_not_nil s) as Hne.
  destruct (Ascii.eqb c LF) eqn:Hc.
  - apply Ascii.eqb_eq in Hc. subst c.
    destruct (split_lines s) as [|l ls]; [contradiction|].
    change (String.concat nl (EmptyString :: l :: ls))
      with (nl ++ String.concat nl (l :: ls)).
    now rewrite IH.
  - destruct (split_lines s) as [|l ls]; [contradiction|].
    rewrite <- IH. destruct ls; reflexivity.
Qed.

Lemma processed_diff_lines (diff_text : string) :
  split_lines (join nl (processed_diff diff_text))
  = match processed_diff diff_text with
    | [] => [EmptyString]
    | lines => lines
    end.
Proof.
  destruct (processed_diff diff_text) as [|l ls] eqn:Hp; [reflexivity|].
  apply split_join_lines; [discriminate|].
  rewrite <- Hp, processed_diff_filter.
  apply filter_Forall, split_lines_are_lines.
Qed.

(** X1.  Filtering is idempotent: joining the filtered lines of a diff text
    and filtering the result again gives the same lines. *)
Theorem filtering_twice_changes_nothing (diff_text : string) :
  processed_diff (join nl (processed_diff diff_text))
  = processed_diff diff_text.
Proof.
  rewrite (processed_diff_filter (join nl _)), processed_diff_lines.
  destruct (processed_diff diff_text) as [|l ls] eqn:Hp; [reflexivity|].
  rewrite <- Hp, processed_diff_filter. apply filter_idempotent.
Qed.

(** X2.  Filtering is local to the lines: the filtered lines of two diff
    texts put one after the other, a line feed between them, are the
    filtered lines of the first followed by those of the second. *)
Theorem filtering_distributes_over_texts (first second : string) :
  processed_diff (first ++ nl ++ second)
  = (processed_diff first ++ processed_diff second)%list.
Proof.
  rewrite !processed_diff_filter, split_lines_app_nl. apply filter_app.
Qed.

Lemma keep_line_first_char (line : string) :
  keep_line line = true ->
  exists c rest,
    line = String c rest
    /\ In c ["+"; "-"; "@"; "d"; "i"]%char.
Proof.
  intros H. apply keep_line_spec in H.
  destruct H as (p & rest & Hin & ->). simpl in Hin.
  repeat match goal with H : _ \/ _ |- _ => destruct H as [H|H] end;
    try contradiction; subst p; simpl; eexists; eexists;
    (split; [reflexivity | simpl; tauto]).
Qed.

(** X3.  Every retained line is a single non-empty line that begins with
    one of the characters [+], [-], [@], [d] and [i]; a context line, which
    begins with a space, is never retained. *)
Theorem retained_lines_are_changes_or_headers (diff_text : string) :
  Forall (fun line =>
            line <> EmptyString
            /\ one_line line = true
            /\ exists c rest,
                line = String c rest /\ In c ["+"; "-"; "@"; "d"; "i"]%char)
         (processed_diff diff_text)
  /\ (forall rest, ~ In (String " " rest) (processed_diff diff_text)).
Proof.
  rewrite processed_diff_filter. split.
  - apply Forall_forall. intros line Hin. apply filter_In in Hin.
    destruct Hin as [Hin Hk].
    destruct (keep_line_first_char line Hk) as (c & rest & -> & Hc).
    split; [discriminate|]. split; [|now exists c, rest].
    pose proof (split_lines_are_lines diff_text) as Hall.
    rewrite Forall_forall in Hall. now apply Hall.
  - intros rest Hin. apply filter_In in Hin. destruct Hin as [_ Hk].
    discriminate.
Qed.

(** X4.  The tests for [---] and [+++] decide nothing: a line is retained
    exactly when it starts with [+], [-], [@@], [diff --git] or [index ]. *)
Theorem three_character_tests_are_subsumed (line : string) :
  keep_line line
  = (startswith line "+" || startswith line "-" || startswith line "@@"
     || startswith line "diff --git" || startswith line "index ").
Proof.
  unfold keep_line.
  assert (Hminus : startswith line "---" = true -> startswith line "-" = true).
  { rewrite !startswith_spec. intros [rest ->]. now exists ("--" ++ rest). }
  assert (Hplus : startswith line "+++" = true -> startswith line "+" = true).
  { rewrite !startswith_spec. intros [rest ->]. now exists ("++" ++ rest). }
  revert Hminus Hplus.
  destruct (startswith line "+"), (startswith line "-"),
    (startswith line "@@"), (startswith line "diff --git"),
    (startswith line "---"), (startswith line "+++");
    simpl; intros Hminus Hplus; try reflexivity;
    try discriminate (Hminus eq_refl); discriminate (Hplus eq_refl).
Qed.

(** X5.  A diff text all of whose lines are retained passes the filter
    unchanged: joining its filtered lines gives the text back. *)
Theorem changes_only_text_is_unchanged (diff_text : string) :
  (forall line, In line (split_lines diff_text) -> keep_line line = true) ->
  join nl (processed_diff diff_text) = diff_text.
Proof.
  intros Hall. rewrite processed_diff_filter, (filter_all _ _ Hall).
  apply join_split_lines.
Qed.

Lemma changes_only_text_is_unchanged_witness :
  (forall line,
      In line (split_lines changes_only_diff) -> keep_line line = true)
  /\ join nl (processed_diff changes_only_diff) = changes_only_diff.
Proof.
  assert (H : forall line,
             In line (split_lines changes_only_diff) -> keep_line line = true).
  { intros line [<-|[<-|[]]]; reflexivity. }
  split; [exact H|].
  exact (changes_only_text_is_unchanged changes_only_diff H).
Defined.

(* ================================================================= *)
(** ** Further properties of the diff bundle *)

Lemma one_line_app (a b : string) :
  one_line (a ++ b) = one_line a && one_line b.
Proof.
  induction a as [|c a IH]; simpl; [reflexivity|].
  now rewrite IH, andb_assoc.
Qed.

Lemma split_lines_block (repo : Repo) (a_path : string) :
  yields_content repo a_path = true -> one_line a_path = true ->
  split_lines (block repo a_path) = block_lines repo a_path.
Proof.
  unfold yields_content, block, block_lines, filtered_diff.
  destruct (git_diff repo a_path) as [diff_text|e]; [|discriminate].
  intros Hy Hp.
  replace ("File: " ++ a_path ++ nl ++ join nl (processed_diff diff_text))
    with (("File: " ++ a_path) ++ nl ++ join nl (processed_diff diff_text))
    by now rewrite !append_assoc.
  rewrite split_lines_app_nl, processed_diff_lines.
  rewrite split_lines_one_line by (rewrite one_line_app; exact Hp).
  now destruct (processed_diff diff_text).
Qed.

Lemma split_lines_bundle (bs : list string) :
  bs <> [] ->
  split_lines (join (nl ++ nl) bs) = blank_separated (map split_lines bs).
Proof.
  unfold join. induction bs as [|b bs IH]; [contradiction|]. intros _.
  destruct bs as [|b' bs]; [reflexivity|].
  change (String.concat (nl ++ nl) (b :: b' :: bs))
    with (b ++ (nl ++ nl) ++ String.concat (nl ++ nl) (b' :: bs)).
  change ((nl ++ nl) ++ String.concat (nl ++ nl) (b' :: bs))
    with (nl ++ EmptyString ++ nl ++ String.concat (nl ++ nl) (b' :: bs)).
  rewrite !split_lines_app_nl, IH by discriminate. reflexivity.
Qed.

Lemma block_lines_not_empty (repo : Repo) (a_path : string) :
  Forall (fun line => line <> EmptyString) (block_lines repo a_path).
Proof.
  unfold block_lines, filtered_diff.
  destruct (git_diff repo a_path) as [diff_text|e]; [|constructor].
  constructor; [discriminate|].
  rewrite processed_diff_filter. apply Forall_forall. intros line Hin.
  apply filter_In in Hin. destruct Hin as [_ Hk]. now destruct line.
Qed.

(** X6.  When no reported path contains a line feed, the empty lines of the
    bundle are exactly the separators between blocks: the lines of the
    bundle are the lines of the blocks, header first, with one empty line
    between two blocks, and no line of a block is empty.  Without blocks the
    bundle is the empty string, which is one empty line. *)
Theorem blank_lines_separate_the_blocks
  (git : Git) (repo_path : string) (repo : Repo) :
  git repo_path = inr repo ->
  Forall (fun a_path => one_line a_path = true) (index_diff repo) ->
  let files := filter (yields_content repo) (index_diff repo) in
  exists bundle,
    outcome_of (get_git_diffs git repo_path) = inr bundle
    /\ split_lines bundle
       = match files with
         | [] => [EmptyString]
         | _ => blank_separated (map (block_lines repo) files)
         end
    /\ Forall (fun line => line <> EmptyString)
              (concat (map (block_lines repo) files)).
Proof.
  intros Hrepo Hpaths files.
  exists (join (nl ++ nl) (blocks repo)).
  rewrite (get_git_diffs_spec git repo_path repo Hrepo).
  split; [reflexivity|]. split.
  - unfold blocks. fold files.
    assert (Hfiles : Forall (fun p => yields_content repo p = true
                                      /\ one_line p = true) files).
    { apply Forall_forall. intros p Hp. apply filter_In in Hp.
      rewrite Forall_forall in Hpaths. destruct Hp as [Hin Hy]. auto. }
    destruct files as [|p ps]; [reflexivity|].
    rewrite split_lines_bundle by discriminate. f_equal.
    rewrite map_map. apply map_ext_Forall.
    eapply Forall_impl; [|exact Hfiles].
    intros a [Hy Hl]. now apply split_lines_block.
  - apply Forall_concat. apply Forall_map. apply Forall_forall.
    intros p _. apply block_lines_not_empty.
Qed.

Lemma blank_lines_separate_the_blocks_witness :
  sample_git "/work/project" = inr sample_repo
  /\ Forall (fun a_path => one_line a_path = true) (index_diff sample_repo)
  /\ exists bundle,
      outcome_of (get_git_diffs sample_git "/work/project") = inr bundle
      /\ split_lines bundle
         = "File: a.py" :: processed_diff sample_diff.
Proof.
  assert (H : Forall (fun a_path => one_line a_path = true)
                     (index_diff sample_repo))
    by (repeat constructor).
  split; [reflexivity|]. split; [exact H|].
  destruct (blank_lines_separate_the_blocks
              sample_git "/work/project" sample_repo eq_refl H)
    as (bundle & Hb & Hlines & _).
  exists bundle. split; [exact Hb | exact Hlines].
Defined.

Lemma filter_filter_subsumed {A} (f g : A -> bool) (l : list A) :
  (forall x, f x = true -> g x = true) ->
  filter f (filter g l) = filter f l.
Proof.
  intros Hfg. induction l as [|x l IH]; simpl; [reflexivity|].
  destruct (g x) eqn:Hg; simpl.
  - now rewrite IH.
  - rewrite IH. destruct (f x) eqn:Hf; [|reflexivity].
    rewrite (Hfg x Hf) in Hg. discriminate.
Qed.

Lemma sleeps_warnings (repo : Repo) : sleeps (warnings repo) = [].
Proof.
  unfold warnings. induction (index_diff repo) as [|p ps IH]; [reflexivity|].
  cbn [flat_map]. rewrite sleeps_app, IH. unfold warning.
  now destruct (git_diff repo p).
Qed.

Lemma warnings_length (repo : Repo) :
  List.length (warnings repo)
  = List.length
      (filter (fun a_path => negb (diff_succeeds repo a_path)) (index_diff repo)).
Proof.
  unfold warnings. induction (index_diff repo) as [|p ps IH]; [reflexivity|].
  cbn [flat_map filter]. rewrite length_app, IH.
  unfold warning, diff_succeeds. now destruct (git_diff repo p).
Qed.

Lemma warnings_without_failures (repo : Repo) :
  warnings (without_failures repo) = [].
Proof.
  unfold warnings. cbn [without_failures index_diff].
  generalize (index_diff repo) as paths.
  induction paths as [|p ps IH]; [reflexivity|].
  cbn [filter]. destruct (diff_succeeds repo p) eqn:Hp; [|exact IH].
  cbn [flat_map]. rewrite IH. unfold warning. cbn [without_failures git_diff].
  unfold diff_succeeds in Hp. now destruct (git_diff repo p).
Qed.

Lemma blocks_without_failures (repo : Repo) :
  blocks (without_failures repo) = blocks repo.
Proof.
  unfold blocks, without_failures. cbn [index_diff].
  change (yields_content {| index_diff := _; git_diff := git_diff repo |})
    with (yields_content repo).
  change (block {| index_diff := _; git_diff := git_diff repo |})
    with (block repo).
  f_equal. apply filter_filter_subsumed.
  intros p. unfold yields_content, filtered_diff, diff_succeeds.
  now destruct (git_diff repo p).
Qed.

(** X7.  A file whose diff cannot be retrieved costs one warning and nothing
    else: the extraction prints exactly one warning per such file, posts and
    sleeps nothing, and returns the bundle it would return had the
    repository not reported those files. *)
Theorem failed_retrievals_are_skipped
  (git : Git) (repo_path : string) (repo : Repo) :
  git repo_path = inr repo ->
  log_of (get_git_diffs git repo_path) = warnings repo
  /\ List.length (warnings repo)
     = List.length
         (filter (fun a_path => negb (diff_succeeds repo a_path))
                 (index_diff repo))
  /\ posts (warnings repo) = []
  /\ sleeps (warnings repo) = []
  /\ get_git_diffs (fun _ => inr (without_failures repo)) repo_path
     = ([], outcome_of (get_git_diffs git repo_path)).
Proof.
  intros Hrepo.
  rewrite (get_git_diffs_spec git repo_path repo Hrepo).
  split; [reflexivity|]. split; [apply warnings_length|].
  split; [apply posts_warnings|]. split; [apply sleeps_warnings|].
  rewrite (get_git_diffs_spec _ repo_path (without_failures repo) eq_refl).
  now rewrite warnings_without_failures, blocks_without_failures.
Qed.

Lemma failed_retrievals_are_skipped_witness :
  sample_git "/work/project" = inr sample_repo
  /\ log_of (get_git_diffs sample_git "/work/project")
     = [Print "Warning: Could not get diff for locked.txt: Permission denied"]
  /\ index_diff (without_failures sample_repo) = ["a.py"; "logo.png"]
  /\ get_git_diffs (fun _ => inr (without_failures sample_repo)) "/work/project"
     = ([], outcome_of (get_git_diffs sample_git "/work/project")).
Proof.
  destruct (failed_retrievals_are_skipped
              sample_git "/work/project" sample_repo eq_refl)
    as (Hlog & _ & _ & _ & Hskip).
  split; [reflexivity|]. split; [exact Hlog|].
  split; [reflexivity | exact Hskip].
Defined.

(* ================================================================= *)
(** ** Further properties of the API client *)

Lemma on_200_raises_only (data : value) (log : list event) (e : exn) :
  on_200 data = (log, inl e) ->
  e = TypeError \/ e = KeyError \/ e = AttributeError.
Proof.
  unfold_io. split_cases; intros H; inversion H; auto.
Qed.

Lemma on_200_some (data : value) (log : list event) (s : string) :
  on_200 data = (log, inr (Returned (Some s))) ->
  exists content, first_choice_content data = Some content /\ s = strip content.
Proof.
  intros H. destruct (expected_shape data) eqn:Hshape.
  - unfold expected_shape in Hshape. apply orb_true_iff in Hshape.
    destruct Hshape as [Hlacks|Hfirst].
    + rewrite (on_200_lacks_choices data Hlacks) in H. discriminate.
    + destruct (first_choice_content data) as [content|] eqn:Hc;
        [|discriminate].
      exists content. split; [reflexivity|].
      rewrite (on_200_first_choice data content Hc) in H. now inversion H.
  - destruct (on_200_other_shapes_raise data Hshape) as [e He].
    rewrite He in H. discriminate.
Qed.

Section Outcomes.

Variable http : Http.
Variable prompt : string.

Lemma attempts_returns_stripped (todo : list Z) (message : string) :
  outcome_of (attempts http prompt todo) = inr (Some message) ->
  exists content, message = strip content.
Proof.
  induction todo as [|attempt rest IH]; [discriminate|].
  destruct (retryable (http attempt)) eqn:Hr.
  - destruct (attempts_retry http prompt attempt rest Hr) as [line [_ ->]].
    exact IH.
  - destruct (retryable_false _ Hr) as (text & data & H).
    destruct (on_200_ends data) as [[e' H200]|[[s H200]|H200]].
    + now rewrite (attempts_200_raises http prompt _ rest _ _ _ _ H H200).
    + rewrite (attempts_200_returns http prompt _ rest _ _ _ _ H H200).
      intros Heq. injection Heq as <-.
      destruct (on_200_some data [] s H200) as (content & _ & ->).
      now exists content.
    + now rewrite (attempts_200_returns http prompt _ rest _ _ _ _ H H200).
Qed.

End Outcomes.

(** X8.  Once [response.json()] has returned the body of a response with
    status 200, the code that reads the body raises nothing but
    [TypeError], [KeyError] and [AttributeError], and raises before it
    prints: the test [len(...) > 0] keeps the subscript [0] from raising
    [IndexError].  Each of the three does occur. *)
Theorem reading_the_body_raises_only (data : value) :
  (forall log e,
      on_200 data = (log, inl e) ->
      log = []
      /\ e <> IndexError
      /\ (e = TypeError \/ e = KeyError \/ e = AttributeError))
  /\ on_200 body_null_choices = ([], inl TypeError)
  /\ on_200 body_bare_choice = ([], inl KeyError)
  /\ on_200 body_null_content = ([], inl AttributeError).
Proof.
  split; [|repeat split].
  intros log e H.
  pose proof (on_200_raises_only data log e H) as He.
  destruct (on_200_ends data) as [[e' H200]|[[s H200]|H200]];
    rewrite H200 in H; inversion H; subst.
  split; [reflexivity|]. split; [|exact He].
  destruct He as [->|[->| ->]]; discriminate.
Qed.

(** X9.  In every run of [call_llm_api] a sleep stands between two POSTs:
    there is one sleep less than there are POSTs, at most three POSTs, every
    sleep lasts 1 or 2 seconds, and the sleeps add up to at most 3
    seconds. *)
Theorem sleeps_stand_between_posts (http : Http) (prompt : string) :
  let log := log_of (call_llm_api http prompt) in
  (List.length (sleeps log) + 1 = List.length (posts log))%nat
  /\ (List.length (posts log) <= 3)%nat
  /\ Forall (fun seconds => seconds = 1 \/ seconds = 2) (sleeps log)
  /\ 0 <= total (sleeps log) <= 3.
Proof.
  intros log. unfold log, call_llm_api.
  destruct (attempts_effects http prompt (range MAX_RETRIES)) as [-> ->].
  pose proof (failed_attempts_le http (range MAX_RETRIES)) as Hle.
  rewrite range_MAX_RETRIES in *. cbn [List.length] in Hle.
  destruct (failed_attempts http [0; 1; 2]) as [|[|[|[|n]]]]; [| | | |lia].
  all: match goal with
       | |- context [map delay_after ?l] =>
           let ds := eval vm_compute in (map delay_after l) in
           change (map delay_after l) with ds
       end;
       split; [reflexivity|]; split; [cbn; lia|];
       split; [repeat (apply Forall_cons; [lia|]); apply Forall_nil
              | cbn; lia].
Qed.

(** X10.  A retry that succeeds: when the attempts before attempt [k] fail
    and attempt [k] receives a response whose first choice has string
    content, the call returns the stripped content, having slept
    [BASE_DELAY * 2^attempt] after each failed attempt and posted [k + 1]
    times. *)
Theorem success_after_failures
  (http : Http) (prompt : string) (k : Z) (text : string) (data : value)
  (content : string) :
  In k (range MAX_RETRIES) ->
  (forall attempt, 0 <= attempt < k -> retryable (http attempt) = true) ->
  http k = Response 200 text data ->
  first_choice_content data = Some content ->
  let run := call_llm_api http prompt in
  outcome_of run = inr (Some (strip content))
  /\ sleeps (log_of run) = map (fun attempt => BASE_DELAY * 2 ^ attempt) (range k)
  /\ List.length (posts (log_of run)) = (Z.to_nat k + 1)%nat.
Proof.
  intros Hk Hfail H Hc run. unfold run, call_llm_api.
  pose proof (on_200_first_choice data content Hc) as H200.
  assert (Hnot : retryable (http k) = false) by now rewrite H.
  destruct (attempts_effects http prompt (range MAX_RETRIES)) as [-> ->].
  rewrite range_MAX_RETRIES in *.
  destruct Hk as [<-|[<-|[<-|[]]]].
  - cbn [failed_attempts]. rewrite Hnot.
    rewrite (attempts_200_returns http prompt _ _ _ _ _ _ H H200).
    repeat split.
  - assert (H0 : retryable (http 0) = true) by (apply Hfail; lia).
    destruct (attempts_retry http prompt 0 [1; 2] H0) as (l0 & _ & ->).
    cbn [failed_attempts]. rewrite H0, Hnot.
    rewrite (attempts_200_returns http prompt _ _ _ _ _ _ H H200).
    repeat split.
  - assert (H0 : retryable (http 0) = true) by (apply Hfail; lia).
    assert (H1 : retryable (http 1) = true) by (apply Hfail; lia).
    destruct (attempts_retry http prompt 0 [1; 2] H0) as (l0 & _ & ->).
    destruct (attempts_retry http prompt 1 [2] H1) as (l1 & _ & ->).
    cbn [failed_attempts]. rewrite H0, H1, Hnot.
    rewrite (attempts_200_returns http prompt _ _ _ _ _ _ H H200).
    repeat split.
Qed.

Lemma success_after_failures_witness :
  In 2 (range MAX_RETRIES)
  /\ http_third_time 2 = Response 200 text_feat body_feat
  /\ outcome_of (call_llm_api http_third_time "describe the change")
     = inr (Some "feat: add X")
  /\ sleeps (log_of (call_llm_api http_third_time "describe the change"))
     = [1; 2]
  /\ List.length (posts (log_of (call_llm_api http_third_time
                                                "describe the change")))
     = 3%nat.
Proof.
  assert (Hk : In 2 (range MAX_RETRIES)) by (simpl; tauto).
  assert (Hfail : forall attempt,
             0 <= attempt < 2 -> retryable (http_third_time attempt) = true).
  { intros attempt Ha. unfold http_third_time.
    destruct (attempt <? 2) eqn:Hlt; [reflexivity|].
    apply Z.ltb_ge in Hlt. lia. }
  split; [exact Hk|]. split; [reflexivity|].
  exact (success_after_failures
           http_third_time "describe the change" 2 text_feat body_feat
           "  feat: add X  " Hk Hfail eq_refl eq_refl).
Defined.

Lemma lstrip_no_leading (s : string) : starts_with_space (lstrip s) = false.
Proof.
  induction s as [|c s IH]; simpl; [reflexivity|].
  destruct (isspace c) eqn:Hc; [exact IH | simpl; exact Hc].
Qed.

Lemma rstrip_no_trailing (s : string) : ends_with_space (rstrip s) = false.
Proof.
  induction s as [|c s IH]; simpl; [reflexivity|].
  destruct (rstrip s) as [|c' r].
  - destruct (isspace c) eqn:Hc; [reflexivity | simpl; exact Hc].
  - exact IH.
Qed.

Lemma lstrip_keeps_end (s : string) :
  ends_with_space s = false -> ends_with_space (lstrip s) = false.
Proof.
  induction s as [|c s IH]; [reflexivity|].
  intros H. cbn [lstrip]. destruct (isspace c) eqn:Hc; [|exact H].
  apply IH. destruct s as [|c' s]; [reflexivity | exact H].
Qed.

Lemma rstrip_fixed (s : string) : ends_with_space s = false -> rstrip s = s.
Proof.
  induction s as [|c s IH]; [reflexivity|].
  intros H. cbn [rstrip]. destruct s as [|c' s].
  - simpl in *. now rewrite H.
  - rewrite (IH H). reflexivity.
Qed.

Lemma lstrip_fixed (s : string) : starts_with_space s = false -> lstrip s = s.
Proof.
  destruct s as [|c s]; [reflexivity|]. simpl. now intros ->.
Qed.

(** X11.  A message returned by [call_llm_api] neither begins nor ends with
    a whitespace character, so stripping it again changes nothing. *)
Theorem returned_message_is_stripped
  (http : Http) (prompt : string) (message : string) :
  outcome_of (call_llm_api http prompt) = inr (Some message) ->
  starts_with_space message = false
  /\ ends_with_space message = false
  /\ strip message = message.
Proof.
  intros H. apply attempts_returns_stripped in H. destruct H as [content ->].
  assert (Hs : starts_with_space (strip content) = false)
    by apply lstrip_no_leading.
  assert (He : ends_with_space (strip content) = false)
    by apply lstrip_keeps_end, rstrip_no_trailing.
  split; [exact Hs|]. split; [exact He|].
  unfold strip at 1. now rewrite (rstrip_fixed _ He), (lstrip_fixed _ Hs).
Qed.

Lemma returned_message_is_stripped_witness :
  outcome_of (call_llm_api http_feat "describe the change")
  = inr (Some "feat: add X")
  /\ strip "feat: add X" = "feat: add X".
Proof.
  split; [reflexivity|].
  exact (proj2 (proj2 (returned_message_is_stripped
                         http_feat "describe the change" "feat: add X"
                         eq_refl))).
Defined.

(* ================================================================= *)
(** ** Further properties of the prompt and the driver *)

Lemma length_append (a b : string) :
  String.length (a ++ b) = (String.length a + String.length b)%nat.
Proof. induction a as [|c a IH]; simpl; [reflexivity | now rewrite IH]. Qed.

Lemma append_inv_head (p a b : string) : p ++ a = p ++ b -> a = b.
Proof.
  induction p as [|c p IH]; simpl; [easy|].
  intros H. apply IH. now inversion H.
Qed.

Lemma append_inv_tail (a b s : string) : a ++ s = b ++ s -> a = b.
Proof.
  revert b. induction a as [|c a IH]; intros [|c' b] H.
  - reflexivity.
  - apply (f_equal String.length) in H. simpl in H.
    rewrite length_append in H. lia.
  - apply (f_equal String.length) in H. simpl in H.
    rewrite length_append in H. lia.
  - simpl in H. inversion H. f_equal. now apply IH.
Qed.

Lemma contains_inside (pre sub post : string) :
  contains sub (pre ++ sub ++ post) = true.
Proof.
  assert (Hhere : String.prefix sub (sub ++ post) = true)
    by (apply (startswith_spec (sub ++ post) sub); now exists post).
  induction pre as [|c pre IH]; simpl.
  - revert Hhere. generalize (sub ++ post) as s.
    intros s Hs. destruct s; cbn [contains]; now rewrite Hs.
  - rewrite IH. apply orb_true_r.
Qed.

(** X12.  The prompt holds the bundle verbatim, between a fixed
    introduction and a fixed closing, and determines it: different bundles
    give different prompts. *)
Theorem prompt_embeds_the_bundle (diffs other : string) :
  user_prompt diffs = prompt_intro ++ diffs ++ prompt_outro
  /\ contains diffs (user_prompt diffs) = true
  /\ (user_prompt diffs = user_prompt other <-> diffs = other).
Proof.
  split; [reflexivity|]. split.
  - apply (contains_inside prompt_intro diffs prompt_outro).
  - split; [|now intros ->].
    change (user_prompt diffs) with (prompt_intro ++ diffs ++ prompt_outro).
    change (user_prompt other) with (prompt_intro ++ other ++ prompt_outro).
    intros H. apply append_inv_head in H. now apply append_inv_tail in H.
Qed.

Lemma failed_attempts_all (http : Http) (todo : list Z) :
  (forall attempt, In attempt todo -> retryable (http attempt) = true) ->
  failed_attempts http todo = List.length todo.
Proof.
  induction todo as [|a rest IH]; intros H; [reflexivity|].
  cbn [failed_attempts List.length].
  rewrite (H a (or_introl eq_refl)), IH; [reflexivity|].
  intros b Hb. apply H. now right.
Qed.

Lemma posts_main_try_tail (r : result (option string)) :
  posts match r with
        | inr (Some message) =>
            [Print "Suggested commit message:"; Print separator;
             Print message; Print separator]
        | inr None => [Print "No commit message generated."]
        | inl e =>
            [PrintError e;
             Print "Please try again later or write the commit message manually."]
        end
  = [].
Proof. now destruct r as [e|[message|]]. Qed.

(** X13.  Once the extraction has returned a bundle, [main] returns with
    exit status 0 whatever the endpoint does: no exception of the generation
    leaves [main].  It returns with status 0 as well when [git.Repo] raises
    [InvalidGitRepositoryError].  When [git.Repo] raises another exception,
    [main] prints nothing and the exit status is 1. *)
Theorem main_exit_status (git : Git) (http : Http) (repo_path : string) :
  (forall diffs,
      outcome_of (get_git_diffs git repo_path) = inr diffs ->
      outcome_of (main git http repo_path) = inr tt
      /\ exit_code (main git http repo_path) = 0)
  /\ (git repo_path = inl InvalidGitRepositoryError ->
      outcome_of (main git http repo_path) = inr tt
      /\ exit_code (main git http repo_path) = 0)
  /\ (forall e,
         git repo_path = inl e -> e <> InvalidGitRepositoryError ->
         main git http repo_path = ([], inl e)
         /\ exit_code (main git http repo_path) = 1).
Proof.
  split; [|split].
  - intros diffs Hd.
    rewrite (main_in_repository git http repo_path diffs Hd).
    now destruct (is_empty diffs).
  - intros H. now rewrite (main_invalid_repository git http repo_path H).
  - intros e H He. unfold exit_code, main, is_git_repository. rewrite H.
    destruct e; try contradiction; split; reflexivity.
Qed.

Lemma main_exit_status_witness :
  outcome_of (get_git_diffs sample_git "/work/project")
  = inr (join (nl ++ nl) (blocks sample_repo))
  /\ exit_code (main sample_git http_bare_choice "/work/project") = 0
  /\ sample_git "/work/plain" = inl InvalidGitRepositoryError
  /\ exit_code (main sample_git http_bare_choice "/work/plain") = 0
  /\ sample_git "/no/such/dir" = inl NoSuchPathError
  /\ exit_code (main sample_git http_bare_choice "/no/such/dir") = 1.
Proof.
  split; [reflexivity|]. split.
  { exact (proj2 (proj1 (main_exit_status
                           sample_git http_bare_choice "/work/project")
                        (join (nl ++ nl) (blocks sample_repo)) eq_refl)). }
  split; [reflexivity|]. split.
  { exact (proj2 (proj1 (proj2 (main_exit_status
                                  sample_git http_bare_choice "/work/plain"))
                        eq_refl)). }
  split; [reflexivity|].
  refine (proj2 (proj2 (proj2 (main_exit_status
                                 sample_git http_bare_choice "/no/such/dir"))
                       NoSuchPathError eq_refl _)).
  discriminate.
Defined.

(** X14.  When the bundle is not empty and every attempt fails, the last
    two lines [main] prints are the terminal failure line of the client and
    [No commit message generated.]; there were three POSTs and sleeps of 1
    and 2 seconds, and the exit status is 0. *)
Theorem exhausted_retries_end_without_message
  (git : Git) (http : Http) (repo_path diffs : string) :
  outcome_of (get_git_diffs git repo_path) = inr diffs ->
  is_empty diffs = false ->
  (forall attempt,
      In attempt (range MAX_RETRIES) -> retryable (http attempt) = true) ->
  let log := log_of (main git http repo_path) in
  (exists before,
      log = (before
             ++ [Print "Failed to get response from LLM after all retries.";
                 Print "No commit message generated."])%list)
  /\ List.length (posts log) = 3%nat
  /\ sleeps log = [1; 2]
  /\ exit_code (main git http repo_path) = 0.
Proof.
  intros Hd Hne Hfail log. unfold log.
  rewrite (main_in_repository git http repo_path diffs Hd), Hne.
  destruct (get_git_diffs_returns git repo_path diffs Hd) as (repo & _ & ->).
  rewrite main_try_spec. unfold generate_commit_message, call_llm_api.
  pose proof (failed_attempts_all http _ Hfail) as Hall.
  destruct (attempts_exhausted http (user_prompt diffs) _ Hall)
    as [Hout [before Hlog]].
  destruct (attempts_effects http (user_prompt diffs) (range MAX_RETRIES))
    as [Hs Hp].
  rewrite Hall in Hs, Hp. rewrite Hout.
  unfold log_of in *. cbn [fst] in *.
  split; [|split; [|split; [|reflexivity]]].
  - exists (warnings repo ++ before)%list.
    rewrite Hlog, <- !app_assoc. reflexivity.
  - rewrite !posts_app, posts_warnings, Hp. reflexivity.
  - rewrite !sleeps_app, sleeps_warnings, Hs. reflexivity.
Qed.

Lemma exhausted_retries_end_without_message_witness :
  outcome_of (get_git_diffs sample_git "/work/project")
  = inr (join (nl ++ nl) (blocks sample_repo))
  /\ (forall attempt,
         In attempt (range MAX_RETRIES) -> retryable (http_500 attempt) = true)
  /\ List.length (posts (log_of (main sample_git http_500 "/work/project")))
     = 3%nat
  /\ sleeps (log_of (main sample_git http_500 "/work/project")) = [1; 2]
  /\ exit_code (main sample_git http_500 "/work/project") = 0.
Proof.
  assert (H : forall attempt,
             In attempt (range MAX_RETRIES) ->
             retryable (http_500 attempt) = true)
    by (intros attempt _; reflexivity).
  split; [reflexivity|]. split; [exact H|].
  exact (proj2 (exhausted_retries_end_without_message
                  sample_git http_500 "/work/project"
                  (join (nl ++ nl) (blocks sample_repo))
                  eq_refl eq_refl H)).
Defined.

(** X15.  When the bundle is not empty and the first response has status
    200 and a body of a shape the client does not deal with, the exception
    is caught by [main]: after the one POST it prints the error and the
    advice to write the message manually, renders nothing and returns. *)
Theorem unexpected_shape_is_reported_by_main
  (git : Git) (http : Http) (repo_path diffs text : string) (data : value) :
  outcome_of (get_git_diffs git repo_path) = inr diffs ->
  is_empty diffs = false ->
  http 0 = Response 200 text data ->
  expected_shape data = false ->
  exists e,
    (e = TypeError \/ e = KeyError \/ e = AttributeError)
    /\ main git http repo_path
       = ((log_of (get_git_diffs git repo_path)
           ++ [Post API_ENDPOINT (payload (user_prompt diffs)) headers 30;
               PrintError e;
               Print "Please try again later or write the commit message manually."])%list,
          inr tt).
Proof.
  intros Hd Hne H Hshape.
  destruct (on_200_other_shapes_raise data Hshape) as [e H200].
  exists e. split; [exact (on_200_raises_only data [] e H200)|].
  rewrite (main_in_repository git http repo_path diffs Hd), Hne.
  rewrite main_try_spec. unfold generate_commit_message, call_llm_api.
  rewrite range_MAX_RETRIES.
  now rewrite (attempts_200_raises http _ 0 [1; 2] text data [] e H H200).
Qed.

Lemma unexpected_shape_is_reported_by_main_witness :
  http_bare_choice 0 = Response 200 text_bare_choice body_bare_choice
  /\ expected_shape body_bare_choice = false
  /\ exists e,
      main sample_git http_bare_choice "/work/project"
      = ([Print "Warning: Could not get diff for locked.txt: Permission denied";
          Post API_ENDPOINT
               (payload (user_prompt (join (nl ++ nl) (blocks sample_repo))))
               headers 30;
          PrintError e;
          Print "Please try again later or write the commit message manually."],
         inr tt).
Proof.
  split; [reflexivity|]. split; [reflexivity|].
  destruct (unexpected_shape_is_reported_by_main
              sample_git http_bare_choice "/work/project"
              (join (nl ++ nl) (blocks sample_repo))
              text_bare_choice body_bare_choice
              eq_refl eq_refl eq_refl eq_refl) as (e & _ & Hmain).
  exists e. exact Hmain.
Defined.

(** X16.  [main] posts exactly when there are changes to describe.  Once the
    extraction has returned, an empty bundle gives no POST and a non-empty
    bundle gives at least one POST and at most three, each to the endpoint
    with the payload built from the prompt of that bundle; and when
    [git.Repo] raises there is no POST. *)
Theorem main_posts_only_with_changes
  (git : Git) (http : Http) (repo_path : string) :
  (forall diffs,
      outcome_of (get_git_diffs git repo_path) = inr diffs ->
      if is_empty diffs
      then posts (log_of (main git http repo_path)) = []
      else exists n,
          (1 <= n <= 3)%nat
          /\ posts (log_of (main git http repo_path))
             = repeat (Post API_ENDPOINT (payload (user_prompt diffs))
                            headers 30)
                      n)
  /\ (forall e,
         git repo_path = inl e ->
         posts (log_of (main git http repo_path)) = []).
Proof.
  split.
  - intros diffs Hd.
    rewrite (main_in_repository git http repo_path diffs Hd).
    destruct (get_git_diffs_returns git repo_path diffs Hd)
      as (repo & _ & ->).
    destruct (is_empty diffs).
    + unfold log_of. cbn [fst]. now rewrite posts_app, posts_warnings.
    + exists (Nat.min (S (failed_attempts http (range MAX_RETRIES)))
                      (List.length (range MAX_RETRIES))).
      split; [rewrite range_MAX_RETRIES; cbn [List.length]; lia|].
      rewrite main_try_spec. unfold log_of. cbn [fst].
      rewrite !posts_app, posts_warnings, posts_main_try_tail, app_nil_r.
      unfold generate_commit_message, call_llm_api.
      exact (proj2 (attempts_effects http _ (range MAX_RETRIES))).
  - intros e H. unfold main, is_git_repository. rewrite H. now destruct e.
Qed.

Lemma main_posts_only_with_changes_witness :
  outcome_of (get_git_diffs sample_git "/work/project")
  = inr (join (nl ++ nl) (blocks sample_repo))
  /\ is_empty (join (nl ++ nl) (blocks sample_repo)) = false
  /\ (exists n,
         (1 <= n <= 3)%nat
         /\ posts (log_of (main sample_git http_feat "/work/project"))
            = repeat (Post API_ENDPOINT
                           (payload (user_prompt
                                       (join (nl ++ nl) (blocks sample_repo))))
                           headers 30)
                     n)
  /\ outcome_of (get_git_diffs sample_git "/work/clean") = inr EmptyString
  /\ posts (log_of (main sample_git http_feat "/work/clean")) = [].
Proof.
  split; [reflexivity|]. split; [reflexivity|]. split.
  { exact (proj1 (main_posts_only_with_changes
                    sample_git http_feat "/work/project")
                 (join (nl ++ nl) (blocks sample_repo)) eq_refl). }
  split; [reflexivity|].
  exact (proj1 (main_posts_only_with_changes
                  sample_git http_feat "/work/clean")
               EmptyString eq_refl).
Defined.
